(** * Near-Earth-Objects-API: the asynchronous job subsystem

    A shallow embedding of [src/jobs.py], [src/worker.py], [src/utils.py]
    and the [/jobs] and [/results] routes of [src/NEO_api.py], with the
    route that flushes the NEO data.

    The four Redis databases, the HotQueue and the plot files under [/app]
    form one explicit [world]; every function of the source that touches
    them is a computation in the monad [M], which threads the world, carries
    the Python exception that escapes, and records every state a write
    leaves behind (so that the order of writes can be stated).

    Library code is modelled at its interface:
    - [json.dumps]/[json.loads] map Python values to JSON documents and
      back; a stored document is kept as its tree [json], not as text;
    - Python floats, [float()] on strings and integers and matplotlib's
      rendering are fields of the class [Runtime];
    - strings are byte strings: [\d] and whitespace are the ASCII ones, and
      the character U+00B1 is its two UTF-8 bytes;
    - [uuid.uuid4()] is the argument [jid] of [add_job]. *)

From Stdlib Require Import ZArith String Ascii List Bool Lia.
From stdpp Require Import base option gmap strings list fin_maps pretty.

Set Warnings "-register-all".
Set Default Proof Using "Type".

Open Scope string_scope.
Open Scope Z_scope.
Open Scope list_scope.

(** ** Python exceptions the code can raise *)

Inductive exn :=
| Exception | TypeError | ValueError | AttributeError
| UnboundLocalError | OverflowError | IndexError | KeyError
| RenderError. (** whatever matplotlib raises *)

Inductive result (A : Type) :=
| Ok (a : A)
| Raise (e : exn).
Arguments Ok {A} a.
Arguments Raise {A} e.

Definition result_bind {A B} (r : result A) (k : A -> result B) : result B :=
  match r with Ok a => k a | Raise e => Raise e end.

(** ** Python's str methods, on byte strings *)

Definition nl : string := String (ascii_of_nat 10) EmptyString.

(** The character U+00B1 (plus-minus), as its UTF-8 bytes. *)
Definition plus_minus : string :=
  String (ascii_of_nat 194) (String (ascii_of_nat 177) EmptyString).

(** [c.isspace()] for an ASCII character of a str. *)
Definition is_space (a : ascii) : bool :=
  let n := nat_of_ascii a in
  (Nat.leb 9 n && Nat.leb n 13) || (Nat.leb 28 n && Nat.leb n 32).

Fixpoint lstrip (s : string) : string :=
  match s with
  | EmptyString => EmptyString
  | String a s' => if is_space a then lstrip s' else s
  end.

Fixpoint rstrip (s : string) : string :=
  match s with
  | EmptyString => EmptyString
  | String a s' =>
      match rstrip s' with
      | EmptyString => if is_space a then EmptyString else String a EmptyString
      | r => String a r
      end
  end.

(** [s.strip()] *)
Definition strip (s : string) : string := lstrip (rstrip s).

(** [s.split()]: the maximal runs of characters that are no whitespace;
    [cur] is the run being read. *)
Fixpoint split_ws (cur : option string) (s : string) : list string :=
  match s with
  | EmptyString => match cur with Some t => [t] | None => [] end
  | String a s' =>
      if is_space a then
        match cur with Some t => t :: split_ws None s' | None => split_ws None s' end
      else
        split_ws (Some (default EmptyString cur +:+ String a EmptyString)) s'
  end.

(** [sep in s] for str operands. *)
Fixpoint str_contains (sep s : string) : bool :=
  String.prefix sep s ||
  match s with
  | EmptyString => false
  | String _ s' => str_contains sep s'
  end.

(** [s.split(sep)] for a separator that is not empty; [skip] counts the
    characters of a separator still to pass, [cur] is the piece being read. *)
Fixpoint split_on (sep : string) (skip : nat) (cur : string) (s : string) : list string :=
  match s with
  | EmptyString => [cur]
  | String a s' =>
      match skip with
      | S n => split_on sep n cur s'
      | O =>
          if String.prefix sep s
          then cur :: split_on sep (String.length sep - 1) EmptyString s'
          else split_on sep 0 (cur +:+ String a EmptyString) s'
      end
  end.

Definition py_split (sep s : string) : list string := split_on sep 0 EmptyString s.

Definition digit_val (a : ascii) : option Z :=
  let n := nat_of_ascii a in
  if Nat.leb 48 n && Nat.leb n 57 then Some (Z.of_nat (n - 48)) else None.

Definition is_digit (a : ascii) : bool :=
  match digit_val a with Some _ => true | None => false end.

(** The digits of an int literal: one underscore may stand between two
    digits. *)
Fixpoint int_digits (acc : Z) (after_digit : bool) (l : list ascii) : option Z :=
  match l with
  | [] => if after_digit then Some acc else None
  | a :: l' =>
      match digit_val a with
      | Some d => int_digits (10 * acc + d) true l'
      | None =>
          if Ascii.eqb a "_" && after_digit then int_digits acc false l' else None
      end
  end.

(** [int(s)] for a str; [None] is ValueError. *)
Definition int_of_str (s : string) : option Z :=
  match list_ascii_of_string (strip s) with
  | "-"%char :: l => option_map Z.opp (int_digits 0 false l)
  | "+"%char :: l => int_digits 0 false l
  | l => int_digits 0 false l
  end.

(** ** Calendar dates: [datetime.strptime(s, "%Y-%b-%d")] *)

Record date := mkdate { year : Z; month : Z; day : Z }.

(** [d1 <= d2] on datetimes at midnight. *)
Definition date_le (d1 d2 : date) : bool :=
  (year d1 <? year d2) ||
  ((year d1 =? year d2) &&
   ((month d1 <? month d2) ||
    ((month d1 =? month d2) && (day d1 <=? day d2)))).

Definition is_leap (y : Z) : bool :=
  (y mod 4 =? 0) && (negb (y mod 100 =? 0) || (y mod 400 =? 0)).

Definition days_in_month (y m : Z) : Z :=
  if m =? 2 then (if is_leap y then 29 else 28)
  else if (m =? 4) || (m =? 6) || (m =? 9) || (m =? 11) then 30
  else 31.

Definition to_lower (a : ascii) : ascii :=
  let n := nat_of_ascii a in
  if Nat.leb 65 n && Nat.leb n 90 then ascii_of_nat (n + 32) else a.

Definition month_abbrs : list string :=
  ["jan"; "feb"; "mar"; "apr"; "may"; "jun";
   "jul"; "aug"; "sep"; "oct"; "nov"; "dec"]%string.

Fixpoint index_of (x : string) (l : list string) (i : Z) : option Z :=
  match l with
  | [] => None
  | y :: l' => if String.eqb x y then Some i else index_of x l' (i + 1)
  end.

(** The directive [%b]: an abbreviated month name, in any case. *)
Definition month_of_abbr (m1 m2 m3 : ascii) : option Z :=
  index_of
    (String (to_lower m1) (String (to_lower m2) (String (to_lower m3) EmptyString)))
    month_abbrs 1.

(** The directive [%d], which reads [3[0-1]|[1-2]\d|0[1-9]|[1-9]| [1-9]],
    on the rest of the string: what it leaves unread is an error. *)
Definition day_of (rest : list ascii) : option Z :=
  match rest with
  | [a; b] =>
      match digit_val a, digit_val b with
      | Some x, Some y =>
          if (x =? 3) && (y <=? 1) then Some (30 + y)
          else if (1 <=? x) && (x <=? 2) then Some (10 * x + y)
          else if (x =? 0) && (1 <=? y) then Some y
          else None
      | None, Some y =>
          if Ascii.eqb a " " && (1 <=? y) then Some y else None
      | _, None => None
      end
  | [a] =>
      match digit_val a with
      | Some x => if 1 <=? x then Some x else None
      | None => None
      end
  | _ => None
  end.

(** [datetime.strptime(s, "%Y-%b-%d")]; [None] is ValueError. The year 0
    and a day the month does not have are refused by [datetime]. *)
Definition strptime (s : string) : option date :=
  match list_ascii_of_string s with
  | y1 :: y2 :: y3 :: y4 :: "-"%char :: m1 :: m2 :: m3 :: "-"%char :: rest =>
      match int_digits 0 false [y1; y2; y3; y4], is_digit y1 && is_digit y2 && is_digit y3 && is_digit y4 with
      | Some y, true =>
          match month_of_abbr m1 m2 m3, day_of rest with
          | Some m, Some d =>
              if (1 <=? y) && (d <=? days_in_month y m)
              then Some (mkdate y m d) else None
          | _, _ => None
          end
      | _, _ => None
      end
  | _ => None
  end.

(** The pattern of [create_job],
    [^\d{4}-(Jan|Feb|...|Dec)-\d{2}$], under [re.match]: the month is
    case-sensitive, and [$] also matches before a final newline. *)
Definition month_names : list string :=
  ["Jan"; "Feb"; "Mar"; "Apr"; "May"; "Jun";
   "Jul"; "Aug"; "Sep"; "Oct"; "Nov"; "Dec"]%string.

Definition re_date_match (s : string) : bool :=
  match list_ascii_of_string s with
  | y1 :: y2 :: y3 :: y4 :: "-"%char :: m1 :: m2 :: m3 :: "-"%char :: d1 :: d2 :: rest =>
      is_digit y1 && is_digit y2 && is_digit y3 && is_digit y4 &&
      existsb (String.eqb (String m1 (String m2 (String m3 EmptyString)))) month_names &&
      is_digit d1 && is_digit d2 &&
      match rest with
      | [] => true
      | [c] => Ascii.eqb c (ascii_of_nat 10)
      | _ => false
      end
  | _ => false
  end.

(** ** The external runtime: floats and plotting *)

(** What matplotlib is asked to draw: [kind == '1'] is the hexbin of distance
    against velocity, [kind == '2'] the scatter of one month. *)
Inductive plot_request (F : Type) :=
| Hexbin (distances velocities : list F) (start_str end_str : string)
| MonthScatter (days : list Z) (velocities mags raritys : list F)
    (month year : Z).
Arguments Hexbin {F}.
Arguments MonthScatter {F}.

Class Runtime := {
  float : Type;
  (** [float(n)] for an int; [None] is OverflowError. *)
  float_of_int : Z -> option float;
  (** [float(s)] for a str; [None] is ValueError. *)
  float_of_str : string -> option float;
  (** [bool(x)] for a float. *)
  float_truthy : float -> bool;
  (** [float.__repr__], used by [json.dumps] for a float key. *)
  float_repr : float -> string;
  (** The bytes [plt.savefig] writes; [None] when drawing raises. *)
  render : plot_request float -> option (list Byte.byte)
}.

Section Model.
Context `{RT : Runtime}.

(** ** Python values and JSON documents *)

Inductive pyval :=
| PNone
| PBool (b : bool)
| PInt (z : Z)
| PFloat (f : float)
| PStr (s : string)
| PBytes (b : list Byte.byte)
| PList (l : list pyval)
| PTuple (l : list pyval)
| PDict (items : list (pyval * pyval)).

Inductive json :=
| JNull
| JBool (b : bool)
| JInt (z : Z)
| JFloat (f : float)
| JStr (s : string)
| JArr (l : list json)
| JObj (members : list (string * json)).

Definition py_truthy (v : pyval) : bool :=
  match v with
  | PNone => false
  | PBool b => b
  | PInt z => negb (Z.eqb z 0)
  | PFloat f => float_truthy f
  | PStr s => negb (String.eqb s "")
  | PBytes b => match b with [] => false | _ => true end
  | PList l | PTuple l => match l with [] => false | _ => true end
  | PDict d => match d with [] => false | _ => true end
  end.

(** [v == s] for a str literal [s]. *)
Definition py_eq_str (v : pyval) (s : string) : bool :=
  match v with PStr s' => String.eqb s' s | _ => false end.

(** [d.get(k, default)] on the items of a dict, for a str key. *)
Fixpoint dict_get (k : string) (default : pyval) (d : list (pyval * pyval)) : pyval :=
  match d with
  | [] => default
  | (k', v) :: d' => if py_eq_str k' k then v else dict_get k default d'
  end.

(** [d[k] = v]: the value is replaced where the key stands, else appended. *)
Fixpoint dict_set (k : string) (v : pyval) (d : list (pyval * pyval)) : list (pyval * pyval) :=
  match d with
  | [] => [(PStr k, v)]
  | (k', v') :: d' =>
      if py_eq_str k' k then (k', v) :: d' else (k', v') :: dict_set k v d'
  end.

(** [x.get(k, default)]: only a dict has the method. *)
Definition py_get (x : pyval) (k : string) (default : pyval) : result pyval :=
  match x with
  | PDict d => Ok (dict_get k default d)
  | _ => Raise AttributeError
  end.

(** The key [json.dumps] writes for a dict key (skipkeys is off). *)
Definition json_key (k : pyval) : result string :=
  match k with
  | PStr s => Ok s
  | PInt z => Ok (pretty z)
  | PFloat f => Ok (float_repr f)
  | PBool true => Ok "true"
  | PBool false => Ok "false"
  | PNone => Ok "null"
  | _ => Raise TypeError
  end.

Fixpoint sequence {A} (l : list (result A)) : result (list A) :=
  match l with
  | [] => Ok []
  | r :: l' =>
      result_bind r (fun a => result_bind (sequence l') (fun t => Ok (a :: t)))
  end.

(** [json.dumps]: bytes are not serialisable, a tuple is written as an
    array, a dict key of another type than str is written as a string. *)
Fixpoint json_dumps (v : pyval) : result json :=
  match v with
  | PNone => Ok JNull
  | PBool b => Ok (JBool b)
  | PInt z => Ok (JInt z)
  | PFloat f => Ok (JFloat f)
  | PStr s => Ok (JStr s)
  | PBytes _ => Raise TypeError
  | PList l | PTuple l =>
      result_bind (sequence (map json_dumps l)) (fun js => Ok (JArr js))
  | PDict d =>
      result_bind
        (sequence (map (fun kv =>
           result_bind (json_key (fst kv)) (fun k =>
           result_bind (json_dumps (snd kv)) (fun j => Ok (k, j)))) d))
        (fun ms => Ok (JObj ms))
  end.

(** [json.loads] of a document: a repeated member keeps its first place
    and its last value. *)
Fixpoint json_loads (j : json) : pyval :=
  match j with
  | JNull => PNone
  | JBool b => PBool b
  | JInt z => PInt z
  | JFloat f => PFloat f
  | JStr s => PStr s
  | JArr l => PList (map json_loads l)
  | JObj ms =>
      PDict (fold_left (fun d kv => dict_set (fst kv) (json_loads (snd kv)) d) ms [])
  end.

(** The values [json.dumps] and [json.loads] take to themselves: None,
    bools, ints, floats, strs, and lists and dicts of them, the keys of a
    dict being strs, each once. *)
Definition is_str (v : pyval) : bool :=
  match v with PStr _ => true | _ => false end.




(** A Redis value is a byte string: a JSON document, or bytes that are no
    document (the PNG images of the worker). *)
Inductive blob :=
| Doc (j : json)
| Raw (b : list Byte.byte).

(** [not blob]: only the empty byte string is falsy. *)
Definition blob_truthy (b : blob) : bool :=
  match b with
  | Doc _ => true
  | Raw [] => false
  | Raw _ => true
  end.

(** [json.loads(blob)]; JSONDecodeError and UnicodeDecodeError are
    ValueErrors. *)
Definition loads_blob (b : blob) : result pyval :=
  match b with
  | Doc j => Ok (json_loads j)
  | Raw _ => Raise ValueError
  end.

(** ** The world and the monad of the code *)

Record world := mkworld {
  rd : gmap string blob;            (** db 0: the NEO records *)
  q : list string;                  (** db 1: the HotQueue, oldest id first *)
  jdb : gmap string blob;           (** db 2: the job records *)
  rdb : gmap string blob;           (** db 3: the results *)
  fs : gmap string blob             (** the files, by path *)
}.

(** A run ends with a value or an exception in a final world, and has left
    the worlds of [visited] behind, one per write, oldest first. *)
Record run (A : Type) := mkrun {
  outcome : result A;
  final : world;
  visited : list world
}.
#[global] Arguments mkrun {A}.
#[global] Arguments outcome {A}.
#[global] Arguments final {A}.
#[global] Arguments visited {A}.

Definition M (A : Type) : Type := world -> run A.

Definition ret {A} (a : A) : M A := fun w => mkrun (Ok a) w [].

Definition raise {A} (e : exn) : M A := fun w => mkrun (Raise e) w [].

Definition bind {A B} (m : M A) (k : A -> M B) : M B := fun w =>
  let r := m w in
  match outcome r with
  | Ok a =>
      let r' := k a (final r) in
      mkrun (outcome r') (final r') (visited r ++ visited r')
  | Raise e => mkrun (Raise e) (final r) (visited r)
  end.

(** [try: m except ...: handler e] *)
Definition try_except {A} (m : M A) (handler : exn -> M A) : M A := fun w =>
  let r := m w in
  match outcome r with
  | Ok a => r
  | Raise e =>
      let r' := handler e (final r) in
      mkrun (outcome r') (final r') (visited r ++ visited r')
  end.

Definition lift {A} (r : result A) : M A :=
  match r with Ok a => ret a | Raise e => raise e end.

Definition read {A} (f : world -> A) : M A := fun w => mkrun (Ok (f w)) w [].

Definition write (f : world -> world) : M unit := fun w =>
  mkrun (Ok tt) (f w) [f w].

#[global] Instance M_ret : MRet M := @ret.
#[global] Instance M_bind : MBind M := fun A B k m => bind m k.

(** The world after one write. *)
Definition with_job (key : string) (v : blob) (w : world) : world :=
  mkworld (rd w) (q w) (<[key := v]> (jdb w)) (rdb w) (fs w).

Definition with_result (key : string) (v : blob) (w : world) : world :=
  mkworld (rd w) (q w) (jdb w) (<[key := v]> (rdb w)) (fs w).

Definition with_queued (jid : string) (w : world) : world :=
  mkworld (rd w) (q w ++ [jid]) (jdb w) (rdb w) (fs w).

Definition with_file (path : string) (v : blob) (w : world) : world :=
  mkworld (rd w) (q w) (jdb w) (rdb w) (<[path := v]> (fs w)).

Definition jdb_get (key : string) : M (option blob) := read (fun w => jdb w !! key).

Definition jdb_set (key : string) (v : blob) : M unit := write (with_job key v).

Definition rdb_get (key : string) : M (option blob) := read (fun w => rdb w !! key).

Definition rdb_set (key : string) (v : blob) : M unit := write (with_result key v).

(** [q.put(jid)]: the id goes to the end of the queue. *)
Definition q_put (jid : string) : M unit := write (with_queued jid).

Definition fs_write (path : string) (b : blob) : M unit := write (with_file path b).

Definition fs_read (path : string) : M (option blob) :=
  read (fun w => fs w !! path).

(** ** jobs.py *)

Definition _instantiate_job (jid : string) (status start end_ kind : pyval) : pyval :=
  PDict [(PStr "id", PStr jid);
         (PStr "status", status);
         (PStr "start", start);
         (PStr "end", end_);
         (PStr "kind", kind)].

Definition _save_job (jid : string) (job_dict : pyval) : M unit :=
  j ← lift (json_dumps job_dict);
  jdb_set jid (Doc j).

Definition _queue_job (jid : string) : M unit := q_put jid.

(** [add_job(start, end, kind, status)]; [jid] is what [_generate_jid()]
    returns in this call. *)
Definition add_job (start end_ kind status : pyval) (jid : string) : M pyval :=
  let job_dict := _instantiate_job jid status start end_ kind in
  _save_job jid job_dict ;;
  _queue_job jid ;;
  ret job_dict.

Definition submitted : pyval := PStr "submitted".

(** [None] is [PNone]. *)
Definition get_job_by_id (jid : string) : M pyval :=
  job_data ← jdb_get jid;
  match job_data with
  | None => ret PNone
  | Some b => lift (loads_blob b)
  end.

(** [x[k] = v] for a str key: only a dict takes it. *)
Definition py_setitem (x : pyval) (k : string) (v : pyval) : result pyval :=
  match x with
  | PDict d => Ok (PDict (dict_set k v d))
  | _ => Raise TypeError
  end.

Definition update_job_status (jid : string) (status : string) : M unit :=
  job_dict ← get_job_by_id jid;
  if py_truthy job_dict then
    job_dict' ← lift (py_setitem job_dict "status" (PStr status));
    _save_job jid job_dict'
  else
    raise Exception.

Definition store_job_result (job_id : string) (result : pyval) : M unit :=
  try_except
    (j ← lift (json_dumps result);
     rdb_set job_id (Doc j))
    (fun _ => ret tt).

Definition get_job_result (job_id : string) : M pyval :=
  try_except
    (result_data ← rdb_get job_id;
     match result_data with
     | None => ret PNone
     | Some b => lift (loads_blob b)
     end)
    (fun _ => ret PNone).

(** ** utils.py *)

(** [clean_to_date_only(time)]. A value that is not a str and not falsy
    fails at [in] (TypeError) or at [split] (AttributeError). *)
Definition clean_to_date_only (time : pyval) : result pyval :=
  if negb (py_truthy time) then Ok (PStr " ") else
  match time with
  | PStr s =>
      let t :=
        if str_contains plus_minus s
        then strip (hd EmptyString (py_split plus_minus s))
        else s in
      match split_ws None t with
      | p :: _ => Ok (PStr p)
      | [] => Ok (PStr (strip t))
      end
  | PList _ | PTuple _ | PDict _ => Raise AttributeError
  | _ => Raise TypeError
  end.

(** [parse_date(date_str)]: only a str has [strip] and is taken by
    [strptime]. *)
Definition parse_date (date_str : pyval) : result date :=
  match date_str with
  | PStr s =>
      match strptime (strip s) with
      | Some d => Ok d
      | None => Raise ValueError
      end
  | PBytes _ => Raise TypeError
  | _ => Raise AttributeError
  end.

(** ** worker.py *)

(** [float(x)], for the values [json.loads] yields. *)
Definition py_float (x : pyval) : result float :=
  match x with
  | PFloat f => Ok f
  | PInt z =>
      match float_of_int z with Some f => Ok f | None => Raise OverflowError end
  | PBool b =>
      match float_of_int (if b then 1 else 0) with
      | Some f => Ok f | None => Raise OverflowError
      end
  | PStr s =>
      match float_of_str s with Some f => Ok f | None => Raise ValueError end
  | _ => Raise TypeError
  end.

(** The five lists the scan fills. *)
Record series := mkseries {
  velocities : list float;
  distances : list float;
  mags : list float;
  raritys : list float;
  days : list Z
}.

Definition empty_series : series := mkseries [] [] [] [] [].

(** The four [float(neo.get(...))] of a record in range, in the order of
    the source. *)
Definition extract (neo : pyval) : result (float * float * float * float) :=
  result_bind (result_bind (py_get neo "V relative(km/s)" (PInt 0)) py_float) (fun velocity =>
  result_bind
    (result_bind (py_get neo "CA DistanceMinimum (au)" (PInt 0)) (fun dflt =>
     result_bind (py_get neo "CA DistanceNominal (au)" dflt) py_float)) (fun distance =>
  result_bind (result_bind (py_get neo "H(mag)" (PInt 0)) py_float) (fun mag =>
  result_bind (result_bind (py_get neo "Rarity" (PInt 0)) py_float) (fun rar =>
  Ok (velocity, distance, mag, rar))))).

(** One turn of the loop over [rd.keys('*')], for the value [neo_raw] read
    at the key: [Ok] is the lists after the turn (unchanged when the record
    is skipped), [Raise] an exception that leaves [do_work]. *)
Definition scan_record (start_date end_date : date) (neo_raw : option blob)
    (acc : series) : result series :=
  match neo_raw with
  | None => Ok acc
  | Some raw =>
      if negb (blob_truthy raw) then Ok acc else
      result_bind (loads_blob raw) (fun neo =>
      result_bind (py_get neo "Close-Approach (CA) Date" (PStr "")) (fun neo_date_str =>
      if negb (py_truthy neo_date_str) then Ok acc else
      match result_bind (clean_to_date_only neo_date_str) parse_date with
      | Raise ValueError => Ok acc
      | Raise e => Raise e
      | Ok neo_date =>
          if date_le start_date neo_date && date_le neo_date end_date then
            match extract neo with
            | Ok (velocity, distance, mag, rar) =>
                Ok (mkseries (velocities acc ++ [velocity])
                             (distances acc ++ [distance])
                             (mags acc ++ [mag])
                             (raritys acc ++ [rar])
                             (days acc ++ [day neo_date]))
            | Raise ValueError | Raise TypeError => Ok acc
            | Raise e => Raise e
            end
          else Ok acc
      end))
  end.

(** The loop, over the keys in the order Redis lists them. *)
Fixpoint scan_keys (db : gmap string blob) (start_date end_date : date)
    (keys : list string) (acc : series) : result series :=
  match keys with
  | [] => Ok acc
  | key :: keys' =>
      result_bind (scan_record start_date end_date (db !! key) acc)
        (scan_keys db start_date end_date keys')
  end.

(** The lists the loop leaves, from empty ones, over all of [db]. *)
Definition scan_result (db : gmap string blob) (start_date end_date : date) : result series :=
  scan_keys db start_date end_date (map fst (map_to_list db)) empty_series.

Definition scan (start_date end_date : date) : M series :=
  db ← read rd;
  lift (scan_result db start_date end_date).

Definition plot_path (jobid : string) : string := "/app/" +:+ jobid +:+ "_plot.png".

Definition result_key (jobid : string) : string := jobid +:+ "_output_plot".

(** [plt.savefig] of a figure. *)
Definition savefig (jobid : string) (req : plot_request float) : M unit :=
  match render req with
  | Some png => fs_write (plot_path jobid) (Raw png)
  | None => raise RenderError
  end.

(** The second [try] of [do_work]: the parameters of the job. Whatever is
    raised leaves as a ValueError. *)
Definition load_parameters (jobid : string) : M (string * string * pyval * date * date) :=
  try_except
    (job_raw ← jdb_get jobid;
     match job_raw with
     | None => raise ValueError
     | Some raw =>
         if negb (blob_truthy raw) then raise ValueError else
         job_data ← lift (loads_blob raw);
         start_date_str ← lift (py_get job_data "start" PNone);
         end_date_str ← lift (py_get job_data "end" PNone);
         kind ← lift (py_get job_data "kind" PNone);
         start_date ← lift (parse_date start_date_str);
         end_date ← lift (parse_date end_date_str);
         ret (match start_date_str with PStr s => s | _ => EmptyString end,
              match end_date_str with PStr s => s | _ => EmptyString end,
              kind, start_date, end_date)
     end)
    (fun _ => raise ValueError).

(** The first [try] of [do_work]: the job is marked as started; when that
    raises, the handler marks it as failed (and raises again if it cannot). *)
Definition mark_started (jobid : string) : M unit :=
  try_except
    (update_job_status jobid "in progress")
    (fun _ => update_job_status jobid "failed").

(** [if not velocities or not distances: raise ValueError(...)] *)
Definition require_data (s : series) : M unit :=
  match velocities s, distances s with
  | [], _ | _, [] => raise ValueError
  | _, _ => ret tt
  end.

(** The branches on [kind]: a plot is saved for '1' and '2'; for any
    other value an error is logged and nothing else is done. *)
Definition make_plot (jobid : string) (kind : pyval) (s : series)
    (start_date_str end_date_str : string) (start_date : date) : M unit :=
  if py_eq_str kind "1" then
    savefig jobid (Hexbin (distances s) (velocities s) start_date_str end_date_str)
  else if py_eq_str kind "2" then
    savefig jobid (MonthScatter (days s) (velocities s) (mags s) (raritys s)
                     (month start_date) (year start_date))
  else ret tt.

(** The end of [do_work]: the plot file is read and stored under
    [<jobid>_output_plot]. When the file cannot be opened, the handler
    reads [file_bytes], which was never bound: UnboundLocalError. *)
Definition store_output (jobid : string) : M unit :=
  file_bytes ← (
    opened ← fs_read (plot_path jobid);
    match opened with
    | Some b => ret b
    | None => raise UnboundLocalError
    end);
  try_except (rdb_set (result_key jobid) file_bytes) (fun _ => ret tt).

(** [do_work(jobid)], the body the HotQueue worker runs on a dequeued id. *)
Definition do_work (jobid : string) : M unit :=
  mark_started jobid ;;
  '(start_date_str, end_date_str, kind, start_date, end_date) ← load_parameters jobid;
  s ← scan start_date end_date;
  require_data s ;;
  make_plot jobid kind s start_date_str end_date_str start_date ;;
  update_job_status jobid "complete" ;;
  store_output jobid.

(** ** NEO_api.py: the routes of the job subsystem *)

Inductive response :=
| Jsonify (v : pyval)                  (** [jsonify(v)] *)
| Jsonify404 (v : pyval)               (** [jsonify(v), 404] *)
| Text (s : string)                    (** a str returned as it is *)
| SendFile (content : blob).           (** [send_file("output.png", ...)] *)

(** [re.match(re_pattern, x)] is not None; the pattern takes a str only. *)
Definition date_pattern_matches (x : pyval) : result bool :=
  match x with
  | PStr s => Ok (re_date_match s)
  | _ => Raise TypeError
  end.

(** [x.split('-')[i]] for a str [x]. *)
Definition dash_part (x : pyval) (i : nat) : result string :=
  match x with
  | PStr s =>
      match nth_error (py_split "-" s) i with
      | Some p => Ok p
      | None => Raise IndexError
      end
  | _ => Raise AttributeError
  end.

(** [int(x.split('-')[2])] *)
Definition day_field (x : pyval) : result Z :=
  result_bind (dash_part x 2) (fun p =>
  match int_of_str p with Some z => Ok z | None => Raise ValueError end).

Definition is_none (v : pyval) : bool :=
  match v with PNone => true | _ => false end.

(** The checks of [create_job] on the three parameters: [Ok None] when
    all pass, [Ok (Some r)] when the route answers [r] at once. The
    conditions are evaluated left to right and stop at the first that
    decides, as [or] and [and] do. *)
Definition check_parameters (start_date end_date kind : pyval) : result (option response) :=
  if is_none start_date || is_none end_date || is_none kind then
    Ok (Some (Jsonify (PStr ("Error missing start_date or end_date parameters or kind parameters" +:+ nl))))
  else
  result_bind (date_pattern_matches start_date) (fun m1 =>
  result_bind (if m1 then date_pattern_matches end_date else Ok false) (fun m2 =>
  if negb (m1 && m2 && (py_eq_str kind "1" || py_eq_str kind "2")) then
    Ok (Some (Text ("Invalid date or kind parameter entered" +:+ nl)))
  else
  result_bind
    (if py_eq_str kind "2" then
       result_bind (dash_part start_date 0) (fun y1 =>
       result_bind (dash_part end_date 0) (fun y2 =>
       if negb (String.eqb y1 y2) then Ok true else
       result_bind (dash_part start_date 1) (fun b1 =>
       result_bind (dash_part end_date 1) (fun b2 =>
       Ok (negb (String.eqb b1 b2))))))
     else Ok false) (fun other_month =>
  if (other_month : bool) then
    Ok (Some (Text ("For Job 2, the start and end dates must be in the same month" +:+ nl)))
  else
  result_bind (day_field start_date) (fun d1 =>
  result_bind (day_field end_date) (fun d2 =>
  if d2 <? d1 then
    Ok (Some (Text ("Start date must be before end date" +:+ nl)))
  else Ok None))))).

(** [create_job()]: [body] is [request.json], [jid] the id [add_job]
    generates if it is reached. An exception is the route's HTTP 500. *)
Definition create_job (body : pyval) (jid : string) : M response :=
  if negb (py_truthy body) then
    ret (Jsonify (PStr "Error, invalid input for job"))
  else
    start_date ← lift (py_get body "start_date" PNone);
    end_date ← lift (py_get body "end_date" PNone);
    kind ← lift (py_get body "kind" PNone);
    verdict ← lift (check_parameters start_date end_date kind);
    match verdict with
    | Some r => ret r
    | None =>
        (* rd.keys() is read into the list ID, which is never None *)
        _ ← read rd;
        job ← add_job start_date end_date kind submitted jid;
        ret (Jsonify job)
    end.


(** [x[k]] for a str key. *)
Definition py_getitem (x : pyval) (k : string) : result pyval :=
  match x with
  | PDict d =>
      if existsb (fun kv => py_eq_str (fst kv) k) d
      then Ok (dict_get k PNone d) else Raise KeyError
  | _ => Raise TypeError
  end.

(** [get_results(job_id)]; the image is written to [output.png] of the
    API's directory before it is sent. *)
Definition get_results (job_id : string) : M response :=
  stored ← rdb_get (result_key job_id);
  match stored with
  | None => ret (Text ("Job ID not found" +:+ nl))
  | Some b =>
      if negb (blob_truthy b) then ret (Text ("Job ID not found" +:+ nl)) else
      job ← get_job_by_id job_id;
      status ← lift (py_getitem job "status");
      if py_eq_str status "complete" then
        fs_write "output.png" b ;;
        ret (SendFile b)
      else ret (Text "Job still in progress")
  end.

(** ** The system: submissions, the worker, and the states they pass *)

(** [for msg in q.consume(): do_work(msg)], one turn: the oldest id leaves
    the queue, then [do_work] runs on it. On an empty queue the worker
    waits. *)
Definition with_queue (ids : list string) (w : world) : world :=
  mkworld (rd w) ids (jdb w) (rdb w) (fs w).

Definition q_get : M (option string) := fun w =>
  match q w with
  | [] => mkrun (Ok None) w []
  | jid :: rest => mkrun (Ok (Some jid)) (with_queue rest w) [with_queue rest w]
  end.

Definition work_once : M unit :=
  next ← q_get;
  match next with
  | Some jid => do_work jid
  | None => ret tt
  end.

Definition with_data (db : gmap string blob) (w : world) : world :=
  mkworld db (q w) (jdb w) (rdb w) (fs w).

Inductive op :=
| Submit (body : pyval) (jid : string)   (** POST /jobs; [jid] is the uuid drawn *)
| Work                                   (** one turn of the worker *)
| SetData (db : gmap string blob).       (** the NEO records are replaced *)

Definition exec (o : op) : M unit :=
  match o with
  | Submit body jid => create_job body jid ;; ret tt
  | Work => work_once
  | SetData db => write (with_data db)
  end.

(** The states the system passes while it performs [ops] from [w], in
    order. An exception ends the operation that raised it (a 500 answer, a
    worker that is restarted), and the system goes on from the state it
    left. *)
Fixpoint states (ops : list op) (w : world) : list world :=
  match ops with
  | [] => []
  | o :: ops' =>
      let r := exec o w in
      visited r ++ states ops' (final r)
  end.

(** Every id drawn is new: no job record has it yet. *)
Fixpoint fresh_ids (ops : list op) (w : world) : Prop :=
  match ops with
  | [] => True
  | o :: ops' =>
      match o with
      | Submit _ jid => jdb w !! jid = None
      | _ => True
      end /\ fresh_ids ops' (final (exec o w))
  end.

(** Before the first submission: no job, no result, nothing queued. *)
Definition initial (w : world) : Prop :=
  q w = [] /\ jdb w = ∅ /\ rdb w = ∅.

(** The status of the job record at [jid], if there is one. *)
Definition job_status (w : world) (jid : string) : option pyval :=
  match outcome (get_job_by_id jid w) with
  | Ok (PDict d) => Some (dict_get "status" PNone d)
  | _ => None
  end.

(** The document [_save_job] stores for a job whose fields are strs. *)
Definition job_doc (jid status start end_ kind : string) : json :=
  JObj [("id", JStr jid); ("status", JStr status); ("start", JStr start);
        ("end", JStr end_); ("kind", JStr kind)].

(** Every id on the queue has a job record. *)
Definition queued_have_records (w : world) : Prop :=
  forall jid, jid ∈ q w -> is_Some (jdb w !! jid).

(** The job at [jid] has a record of str fields with this status. *)
Definition job_record (w : world) (jid status : string) : Prop :=
  exists s e k, jdb w !! jid = Some (Doc (job_doc jid status s e k)).

(** What the job subsystem keeps true of the stores and the queue. *)
Definition consistent (w : world) : Prop :=
  (forall jid, is_Some (jdb w !! jid) ->
     job_record w jid "submitted" \/ job_record w jid "in progress" \/
     job_record w jid "complete") /\
  NoDup (q w) /\
  (forall jid, jid ∈ q w ->
     job_record w jid "submitted" /\ rdb w !! result_key jid = None) /\
  (forall jid, is_Some (rdb w !! result_key jid) -> job_record w jid "complete").

(** The worlds [do_work jid] passes from [w], where the record of the job
    has the fields [s], [e], [k]: first the job is in progress and no
    result is written, then it is complete. *)
Definition started_from (w : world) (jid s e k : string) (w' : world) : Prop :=
  rd w' = rd w /\ q w' = q w /\ rdb w' = rdb w /\
  jdb w' = <[jid := Doc (job_doc jid "in progress" s e k)]> (jdb w).

Definition completed_from (w : world) (jid s e k : string) (w' : world) : Prop :=
  rd w' = rd w /\ q w' = q w /\
  jdb w' = <[jid := Doc (job_doc jid "complete" s e k)]> (jdb w) /\
  (rdb w' = rdb w \/ exists b, rdb w' = <[result_key jid := b]> (rdb w)).




(** In every run, the final world is the last one a write left, or the
    first when nothing was written. *)
Definition tracked {A} (m : M A) : Prop :=
  forall w, final (m w) = default w (last (visited (m w))).

(** ** Computations that only read, and predicates that every write keeps *)

Definition readonly {A} (m : M A) : Prop :=
  forall w, final (m w) = w /\ visited (m w) = [].

Definition preserves {A} (P : world -> Prop) (m : M A) : Prop :=
  forall w, P w -> P (final (m w)) /\ Forall P (visited (m w)).

(** ** NEO_api.py: two more routes *)

(** [list_jobs()] *)
Definition list_jobs : M response :=
  job_keys ← read (fun w => map fst (map_to_list (jdb w)));
  match job_keys with
  | [] => ret (Jsonify (PStr "No job ID's currently"))
  | _ => ret (Jsonify (PList (map PStr job_keys)))
  end.

(** [delete_neo_data()] *)
Definition delete_neo_data : M response :=
  write (with_data ∅) ;;
  keys ← read (fun w => map fst (map_to_list (rd w)));
  match keys with
  | [] => ret (Text ("Database flushed" +:+ nl))
  | _ => ret (Text ("Database failed to clear" +:+ nl))
  end.

(** ** Frames, orders and shapes that the properties speak of *)

(** [w] differs from [w0] at most in the record of the job [jid], in its
    result and in its plot file. *)
Definition untouched_elsewhere (jid : string) (w0 w : world) : Prop :=
  rd w = rd w0 /\ q w = q w0 /\
  (forall k, k <> jid -> jdb w !! k = jdb w0 !! k) /\
  (forall k, k <> result_key jid -> rdb w !! k = rdb w0 !! k) /\
  (forall p, p <> plot_path jid -> fs w !! p = fs w0 !! p).

(** The five lists of a scan have one length. *)
Definition balanced (s : series) : Prop :=
  length (distances s) = length (velocities s) /\
  length (mags s) = length (velocities s) /\
  length (raritys s) = length (velocities s) /\
  length (days s) = length (velocities s).



(** No character of [s] is whitespace. *)
Definition no_space (s : string) : bool :=
  forallb (fun a => negb (is_space a)) (list_ascii_of_string s).

(** The stored value is a JSON object whose close-approach date is a str
    (or is missing). *)
Definition dated_record (b : blob) : bool :=
  match result_bind (loads_blob b)
          (fun neo => py_get neo "Close-Approach (CA) Date" (PStr "")) with
  | Ok (PStr _) => true
  | _ => false
  end.

End Model.

(** * A test runtime and sample data *)

(** A runtime for running the model: floats are the integers, [float(s)]
    reads an int literal, and every plot renders to the PNG signature. *)
Definition test_runtime : Runtime :=
  {| float := Z;
     float_of_int := Some;
     float_of_str := int_of_str;
     float_truthy := fun z => negb (Z.eqb z 0);
     float_repr := pretty;
     render := fun _ => Some [Byte.x89; Byte.x50; Byte.x4e; Byte.x47] |}.

Section Fixtures.
#[local] Existing Instance test_runtime.

(** One close approach, on 12 January 2025. *)
Definition sample_neo : json :=
  JObj [("Object", JStr "(2025 AB)");
        ("Close-Approach (CA) Date", JStr ("2025-Jan-12 12:30 " +:+ plus_minus +:+ " 00:01"));
        ("CA DistanceNominal (au)", JStr "3");
        ("V relative(km/s)", JInt 7);
        ("H(mag)", JInt 20);
        ("Rarity", JInt 1)].

(** The NEO data is loaded; no job was ever submitted. *)
Definition sample_world : world :=
  mkworld (<["2025-Jan-12 12:30" := Doc sample_neo]> ∅) [] ∅ ∅ ∅.

Definition job_request (start_date end_date kind : string) : pyval :=
  PDict [(PStr "start_date", PStr start_date);
         (PStr "end_date", PStr end_date);
         (PStr "kind", PStr kind)].

(** A job over January 2025 is submitted and the worker runs it. *)
Definition sample_ops : list op :=
  [Submit (job_request "2025-Jan-01" "2025-Jan-31" "1") "job-1"; Work].

Definition sample_trace : list world :=
  sample_world :: states sample_ops sample_world.



(** The world in which [request] was submitted as job [jid] and is queued. *)
Definition submitted_world (request : pyval) (jid : string) : world :=
  final (create_job request jid sample_world).

End Fixtures.

(** * Properties *)

Section Properties.
Context `{RT : Runtime}.

(** ** The monad *)

Lemma bind_run {A B} (m : M A) (k : A -> M B) (w : world) :
  (m ≫= k) w =
  match outcome (m w) with
  | Ok a =>
      mkrun (outcome (k a (final (m w)))) (final (k a (final (m w))))
            (visited (m w) ++ visited (k a (final (m w))))
  | Raise e => mkrun (Raise e) (final (m w)) (visited (m w))
  end.
Proof. reflexivity. Qed.

Lemma run_eta {A} (r : run A) : mkrun (outcome r) (final r) (visited r) = r.
Proof. destruct r; reflexivity. Qed.

Lemma ret_bind {A B} (a : A) (k : A -> M B) (w : world) :
  (ret a ≫= k) w = k a w.
Proof. rewrite bind_run. cbn. apply run_eta. Qed.

Lemma raise_bind {A B} (e : exn) (k : A -> M B) (w : world) :
  (raise e ≫= k) w = mkrun (Raise e) w [].
Proof. reflexivity. Qed.

Lemma read_bind {A B} (f : world -> A) (k : A -> M B) (w : world) :
  (read f ≫= k) w = k (f w) w.
Proof. rewrite bind_run. cbn. apply run_eta. Qed.

Lemma readonly_ret {A} (a : A) : readonly (ret a).
Proof. intros w; split; reflexivity. Qed.

Lemma readonly_raise {A} (e : exn) : readonly (@raise _ A e).
Proof. intros w; split; reflexivity. Qed.

Lemma readonly_lift {A} (r : result A) : readonly (lift r).
Proof. destruct r; [apply readonly_ret | apply readonly_raise]. Qed.

Lemma readonly_read {A} (f : world -> A) : readonly (read f).
Proof. intros w; split; reflexivity. Qed.

Lemma readonly_bind {A B} (m : M A) (k : A -> M B) :
  readonly m -> (forall a, readonly (k a)) -> readonly (m ≫= k).
Proof.
  intros Hm Hk w. rewrite bind_run.
  destruct (Hm w) as [Hf Hv].
  destruct (outcome (m w)) as [a|e]; cbn.
  - destruct (Hk a (final (m w))) as [Hf' Hv'].
    rewrite Hf', Hv, Hv', Hf. split; reflexivity.
  - rewrite Hf, Hv. split; reflexivity.
Qed.

Lemma readonly_try {A} (m : M A) (h : exn -> M A) :
  readonly m -> (forall e, readonly (h e)) -> readonly (try_except m h).
Proof.
  intros Hm Hh w. unfold try_except.
  destruct (Hm w) as [Hf Hv].
  destruct (outcome (m w)) as [a|e]; cbn.
  - split; assumption.
  - destruct (Hh e (final (m w))) as [Hf' Hv'].
    rewrite Hf', Hv, Hv', Hf. split; reflexivity.
Qed.

Lemma preserves_readonly {A} (P : world -> Prop) (m : M A) :
  readonly m -> preserves P m.
Proof.
  intros Hm w HP. destruct (Hm w) as [-> ->]. split; [assumption | constructor].
Qed.

Lemma preserves_write (P : world -> Prop) (f : world -> world) :
  (forall w, P w -> P (f w)) -> preserves P (write f).
Proof.
  intros Hf w HP. cbn. split; [auto | repeat constructor; auto].
Qed.

Lemma preserves_bind {A B} (P : world -> Prop) (m : M A) (k : A -> M B) :
  preserves P m -> (forall a, preserves P (k a)) -> preserves P (m ≫= k).
Proof.
  intros Hm Hk w HP. rewrite bind_run.
  destruct (Hm w HP) as [Hf Hv].
  destruct (outcome (m w)) as [a|e]; cbn.
  - destruct (Hk a _ Hf) as [Hf' Hv'].
    split; [assumption | apply Forall_app; split; assumption].
  - split; assumption.
Qed.

Lemma preserves_try {A} (P : world -> Prop) (m : M A) (h : exn -> M A) :
  preserves P m -> (forall e, preserves P (h e)) -> preserves P (try_except m h).
Proof.
  intros Hm Hh w HP. unfold try_except.
  destruct (Hm w HP) as [Hf Hv].
  destruct (outcome (m w)) as [a|e]; cbn.
  - split; assumption.
  - destruct (Hh e _ Hf) as [Hf' Hv'].
    split; [assumption | apply Forall_app; split; assumption].
Qed.

Create HintDb ro discriminated.
Create HintDb pres discriminated.
#[local] Hint Resolve readonly_ret readonly_raise readonly_lift readonly_read : ro.

(** Takes a computation apart down to its reads and writes. *)
Ltac step_ro :=
  repeat first
    [ solve [auto with ro]
    | apply readonly_bind; [| intros ?]
    | apply readonly_try; [| intros ?]
    | match goal with
      | |- readonly (match ?x with _ => _ end) => destruct x
      | |- readonly (if ?b then _ else _) => destruct b
      end ].

Lemma readonly_get_job_by_id (jid : string) : readonly (get_job_by_id jid).
Proof. unfold get_job_by_id, jdb_get. step_ro. Qed.
#[local] Hint Resolve readonly_get_job_by_id : ro.

Lemma readonly_load_parameters (jobid : string) : readonly (load_parameters jobid).
Proof. unfold load_parameters, jdb_get. step_ro. Qed.

Lemma readonly_scan (d1 d2 : date) : readonly (scan d1 d2).
Proof. unfold scan. step_ro. Qed.
#[local] Hint Resolve readonly_load_parameters readonly_scan : ro.

Lemma readonly_get_job_result (job_id : string) : readonly (get_job_result job_id).
Proof. unfold get_job_result, rdb_get. step_ro. Qed.

(** ** [json.loads] after [json.dumps] *)

Section pyval_induction.
Variable P : pyval -> Prop.
Hypothesis HNone : P PNone.
Hypothesis HBool : forall b, P (PBool b).
Hypothesis HInt : forall z, P (PInt z).
Hypothesis HFloat : forall f, P (PFloat f).
Hypothesis HStr : forall s, P (PStr s).
Hypothesis HBytes : forall b, P (PBytes b).
Hypothesis HList : forall l, Forall P l -> P (PList l).
Hypothesis HTuple : forall l, Forall P l -> P (PTuple l).
Hypothesis HDict : forall d, Forall (fun kv => P (fst kv) /\ P (snd kv)) d -> P (PDict d).

End pyval_induction.







(** ** jobs.py: single calls *)

(** C10: for a job id that has no record in the job store,
    [update_job_status] raises [Exception]; it writes nothing and leaves
    the world as it was. *)
Theorem update_job_status_unknown_id (w : world) (jid status : string) :
  jdb w !! jid = None ->
  update_job_status jid status w = mkrun (Raise Exception) w [].
Proof.
  intros Hnone. unfold update_job_status, get_job_by_id, jdb_get.
  rewrite !bind_run. cbn. rewrite Hnone. reflexivity.
Qed.

(** What passes the checks of [create_job] is three strs. *)
Lemma check_parameters_strs (start_date end_date kind : pyval) :
  check_parameters start_date end_date kind = Ok None ->
  exists s e k, start_date = PStr s /\ end_date = PStr e /\ kind = PStr k.
Proof.
  unfold check_parameters. intros H.
  destruct start_date as [| | | |s| | | |]; try discriminate H;
    try (destruct end_date, kind; discriminate H).
  destruct end_date as [| | | |e| | | |];
    try (destruct kind; cbn in H; destruct (re_date_match s); discriminate H).
  destruct kind as [| | | |k| | | |];
    try (cbn in H; destruct (re_date_match s), (re_date_match e); discriminate H).
  exists s, e, k. repeat split.
Qed.

Lemma save_job_strs (w : world) (jid st s e k : string) :
  _save_job jid (_instantiate_job jid (PStr st) (PStr s) (PStr e) (PStr k)) w =
  let w' := with_job jid (Doc (job_doc jid st s e k)) w in
  mkrun (Ok tt) w' [w'].
Proof. reflexivity. Qed.

Lemma loads_job_doc (jid st s e k : string) :
  json_loads (job_doc jid st s e k) =
  _instantiate_job jid (PStr st) (PStr s) (PStr e) (PStr k).
Proof. reflexivity. Qed.

Lemma add_job_strs (w : world) (jid s e k : string) :
  add_job (PStr s) (PStr e) (PStr k) submitted jid w =
  let w1 := with_job jid (Doc (job_doc jid "submitted" s e k)) w in
  let w2 := with_queued jid w1 in
  mkrun (Ok (_instantiate_job jid submitted (PStr s) (PStr e) (PStr k))) w2 [w1; w2].
Proof. reflexivity. Qed.

(** The run of [create_job] on a body that passes the checks. *)
Lemma create_job_accepted (w : world) (body : pyval) (jid : string)
    (start_date end_date kind : pyval) :
  py_truthy body = true ->
  py_get body "start_date" PNone = Ok start_date ->
  py_get body "end_date" PNone = Ok end_date ->
  py_get body "kind" PNone = Ok kind ->
  check_parameters start_date end_date kind = Ok None ->
  create_job body jid w =
  (job ← add_job start_date end_date kind submitted jid; ret (Jsonify job)) w.
Proof.
  intros Ht Hs He Hk Hc. unfold create_job. rewrite Ht, Hs, He, Hk.
  cbn [negb lift]. rewrite !ret_bind, Hc. cbn [lift].
  rewrite ret_bind, read_bind. reflexivity.
Qed.

(** C7: after a submission that passes the checks of [create_job], and
    before anything else runs, [get_job_by_id] on the id of the job returns
    the job that [create_job] answered: its status is "submitted" and its
    start, end and kind are the submitted parameters. *)
Theorem get_after_submit (w : world) (body : pyval) (jid : string)
    (start_date end_date kind : pyval) :
  py_truthy body = true ->
  py_get body "start_date" PNone = Ok start_date ->
  py_get body "end_date" PNone = Ok end_date ->
  py_get body "kind" PNone = Ok kind ->
  check_parameters start_date end_date kind = Ok None ->
  exists job,
    outcome (create_job body jid w) = Ok (Jsonify job) /\
    outcome (get_job_by_id jid (final (create_job body jid w))) = Ok job /\
    py_get job "id" PNone = Ok (PStr jid) /\
    py_get job "status" PNone = Ok (PStr "submitted") /\
    py_get job "start" PNone = Ok start_date /\
    py_get job "end" PNone = Ok end_date /\
    py_get job "kind" PNone = Ok kind.
Proof.
  intros Ht Hs He Hk Hc.
  rewrite (create_job_accepted w body jid _ _ _ Ht Hs He Hk Hc).
  destruct (check_parameters_strs _ _ _ Hc) as (s & e & k & -> & -> & ->).
  exists (_instantiate_job jid submitted (PStr s) (PStr e) (PStr k)).
  rewrite bind_run, add_job_strs. cbn.
  unfold get_job_by_id, jdb_get. rewrite bind_run. cbn.
  rewrite lookup_insert_eq. cbn.
  repeat split; reflexivity.
Qed.


(** ** Queued ids have records *)

(** Takes a computation apart down to its writes. *)
Ltac step_pres :=
  repeat first
    [ solve [auto with pres]
    | apply preserves_readonly; solve [auto with ro]
    | apply preserves_bind; [| intros ?]
    | apply preserves_try; [| intros ?]
    | match goal with
      | |- preserves _ (match ?x with _ => _ end) => destruct x
      | |- preserves _ (if ?b then _ else _) => destruct b
      end ].

Lemma qhr_jdb_set (key : string) (v : blob) :
  preserves queued_have_records (jdb_set key v).
Proof.
  apply preserves_write. intros w H jid Hin. cbn in *.
  destruct (decide (key = jid)) as [->|Hne].
  - rewrite lookup_insert_eq. eauto.
  - rewrite lookup_insert_ne by assumption. auto.
Qed.

Lemma qhr_rdb_set (key : string) (v : blob) :
  preserves queued_have_records (rdb_set key v).
Proof. apply preserves_write. intros w H jid Hin. apply H, Hin. Qed.

Lemma qhr_fs_write (path : string) (v : blob) :
  preserves queued_have_records (fs_write path v).
Proof. apply preserves_write. intros w H jid Hin. apply H, Hin. Qed.
#[local] Hint Resolve qhr_jdb_set qhr_rdb_set qhr_fs_write : pres.

Lemma qhr_save_job (jid : string) (job_dict : pyval) :
  preserves queued_have_records (_save_job jid job_dict).
Proof. unfold _save_job. step_pres. Qed.
#[local] Hint Resolve qhr_save_job : pres.

Lemma qhr_update_job_status (jid status : string) :
  preserves queued_have_records (update_job_status jid status).
Proof. unfold update_job_status. step_pres. Qed.
#[local] Hint Resolve qhr_update_job_status : pres.







(** ** The run of the worker on one job *)

Lemma update_job_status_run (w : world) (jid st st' s e k : string) :
  jdb w !! jid = Some (Doc (job_doc jid st s e k)) ->
  update_job_status jid st' w =
  mkrun (Ok tt) (with_job jid (Doc (job_doc jid st' s e k)) w)
        [with_job jid (Doc (job_doc jid st' s e k)) w].
Proof.
  intros H. unfold update_job_status, get_job_by_id, jdb_get.
  rewrite bind_run. rewrite read_bind. rewrite H. reflexivity.
Qed.

Lemma mark_started_run (w : world) (jid st s e k : string) :
  jdb w !! jid = Some (Doc (job_doc jid st s e k)) ->
  mark_started jid w =
  mkrun (Ok tt) (with_job jid (Doc (job_doc jid "in progress" s e k)) w)
        [with_job jid (Doc (job_doc jid "in progress" s e k)) w].
Proof.
  intros H. unfold mark_started, try_except.
  rewrite (update_job_status_run _ _ _ _ _ _ _ H). reflexivity.
Qed.

Lemma readonly_bind_run {A B} (m : M A) (k : A -> M B) (w : world) :
  readonly m ->
  (m ≫= k) w =
  match outcome (m w) with
  | Ok a => k a w
  | Raise e => mkrun (Raise e) w []
  end.
Proof.
  intros Hm. rewrite bind_run. destruct (Hm w) as [-> ->].
  destruct (outcome (m w)); [apply run_eta | reflexivity].
Qed.

Lemma readonly_require_data (s : series) : readonly (require_data s).
Proof.
  unfold require_data. destruct (velocities s), (distances s);
    first [apply readonly_raise | apply readonly_ret].
Qed.

(** [make_plot] writes the plot file or nothing. *)
Lemma make_plot_run (jid : string) (kind : pyval) (ser : series) (ss es : string)
    (sd : date) (w : world) :
  (exists o, make_plot jid kind ser ss es sd w = mkrun o w []) \/
  (exists png, make_plot jid kind ser ss es sd w =
     mkrun (Ok tt) (with_file (plot_path jid) (Raw png) w)
           [with_file (plot_path jid) (Raw png) w]).
Proof.
  unfold make_plot, savefig.
  destruct (py_eq_str kind "1"); [|destruct (py_eq_str kind "2")];
    try (destruct (render _); [right | left]; eauto).
  left. eauto.
Qed.

Lemma store_output_run (jid : string) (w : world) :
  store_output jid w =
  match fs w !! plot_path jid with
  | Some b => mkrun (Ok tt) (with_result (result_key jid) b w)
                    [with_result (result_key jid) b w]
  | None => mkrun (Raise UnboundLocalError) w []
  end.
Proof.
  unfold store_output, fs_read. rewrite bind_run, read_bind.
  destruct (fs w !! plot_path jid); reflexivity.
Qed.

(** The last two steps of [do_work], from a world in which the job is in
    progress. *)
Lemma finish_run (jid s e k : string) (w1 : world) :
  jdb w1 !! jid = Some (Doc (job_doc jid "in progress" s e k)) ->
  exists l,
    visited ((update_job_status jid "complete" ;; store_output jid) w1) =
      with_job jid (Doc (job_doc jid "complete" s e k)) w1 :: l /\
    (l = [] \/ exists b, l = [with_result (result_key jid) b
                               (with_job jid (Doc (job_doc jid "complete" s e k)) w1)]).
Proof.
  intros H. rewrite bind_run, (update_job_status_run _ _ _ _ _ _ _ H).
  cbn [outcome final visited]. rewrite store_output_run.
  destruct (fs _ !! plot_path jid) as [b|]; cbn [outcome final visited app];
    eexists; (split; [reflexivity|]); eauto.
Qed.

Lemma do_work_phases (w : world) (jid s e k : string) :
  jdb w !! jid = Some (Doc (job_doc jid "submitted" s e k)) ->
  exists pre post : list world,
    visited (do_work jid w) = pre ++ post /\ pre <> [] /\
    Forall (started_from w jid s e k) pre /\
    Forall (completed_from w jid s e k) post.
Proof.
  intros H. unfold do_work.
  rewrite bind_run, (mark_started_run _ _ _ _ _ _ H). cbn [outcome final visited].
  set (w1 := with_job jid _ w).
  assert (S1 : started_from w jid s e k w1) by (repeat split).
  assert (Stop : exists pre post : list world,
            [w1] ++ [] = pre ++ post /\ pre <> [] /\
            Forall (started_from w jid s e k) pre /\
            Forall (completed_from w jid s e k) post).
  { exists [w1], []. repeat split; [discriminate | repeat constructor | constructor]. }
  rewrite (readonly_bind_run _ _ _ (readonly_load_parameters jid)).
  destruct (outcome (load_parameters jid w1)) as [[[[[ss es] kind] sd] ed]|ex];
    [|exact Stop].
  rewrite (readonly_bind_run _ _ _ (readonly_scan sd ed)).
  destruct (outcome (scan sd ed w1)) as [ser|ex]; [|exact Stop].
  rewrite (readonly_bind_run _ _ _ (readonly_require_data ser)).
  destruct (outcome (require_data ser w1)) as [[]|ex]; [|exact Stop].
  rewrite bind_run.
  assert (Fin : forall w2, started_from w jid s e k w2 ->
            exists l, visited ((update_job_status jid "complete" ;; store_output jid) w2) = l /\
                      l <> [] /\ Forall (completed_from w jid s e k) l).
  { intros w2 (Hrd & Hq & Hrdb & Hjdb).
    assert (H2 : jdb w2 !! jid = Some (Doc (job_doc jid "in progress" s e k)))
      by (rewrite Hjdb; apply lookup_insert_eq).
    destruct (finish_run _ _ _ _ _ H2) as (l & -> & Hl).
    eexists; split; [reflexivity|]. split; [discriminate|].
    assert (C3 : completed_from w jid s e k
                   (with_job jid (Doc (job_doc jid "complete" s e k)) w2)).
    { unfold completed_from. cbn. rewrite Hjdb, insert_insert_eq. auto. }
    constructor; [exact C3|].
    destruct Hl as [->|(b & ->)]; constructor; [|constructor].
    unfold completed_from. cbn. rewrite Hjdb, insert_insert_eq, Hrdb. eauto 6. }
  destruct (make_plot_run jid kind ser ss es sd w1) as [(o & ->)|(png & ->)];
    cbn [outcome final visited].
  - destruct o as [[]|ex]; [|exact Stop]. cbn [outcome final visited].
    destruct (Fin w1 S1) as (l & -> & _ & Hl).
    exists [w1], l. repeat split; [discriminate | repeat constructor; apply S1 | exact Hl].
  - set (w2 := with_file _ _ w1).
    assert (S2 : started_from w jid s e k w2) by (repeat split).
    destruct (Fin w2 S2) as (l & -> & _ & Hl).
    exists [w1; w2], l.
    repeat split; [discriminate | repeat constructor; assumption | exact Hl].
Qed.



Lemma load_parameters_run (w : world) (jid st s e k : string) :
  jdb w !! jid = Some (Doc (job_doc jid st s e k)) ->
  load_parameters jid w =
  match parse_date (PStr s), parse_date (PStr e) with
  | Ok sd, Ok ed => mkrun (Ok (s, e, PStr k, sd, ed)) w []
  | _, _ => mkrun (Raise ValueError) w []
  end.
Proof.
  intros H. unfold load_parameters, try_except, jdb_get.
  rewrite read_bind, H. cbn [blob_truthy negb loads_blob lift].
  rewrite ret_bind, loads_job_doc.
  cbn [_instantiate_job py_get dict_get py_eq_str String.eqb Ascii.eqb
       Bool.eqb lift fst snd].
  rewrite !ret_bind.
  destruct (parse_date (PStr s)) as [sd|e1]; cbn [lift]; [|reflexivity].
  rewrite ret_bind.
  destruct (parse_date (PStr e)) as [ed|e2]; cbn [lift]; [|reflexivity].
  rewrite ret_bind. reflexivity.
Qed.

Lemma scan_run (sd ed : date) (w : world) :
  scan sd ed w = mkrun (scan_result (rd w) sd ed) w [].
Proof.
  unfold scan. rewrite read_bind. destruct (scan_result (rd w) sd ed); reflexivity.
Qed.

(** The start of [do_work] on a submitted job whose dates parse: the job
    is in progress and the scan has run. *)
Lemma do_work_scanned (w : world) (jid s e k : string) (sd ed : date) (ser : series) :
  jdb w !! jid = Some (Doc (job_doc jid "submitted" s e k)) ->
  parse_date (PStr s) = Ok sd -> parse_date (PStr e) = Ok ed ->
  scan_result (rd w) sd ed = Ok ser ->
  do_work jid w =
  let w1 := with_job jid (Doc (job_doc jid "in progress" s e k)) w in
  let r := (require_data ser ;;
            make_plot jid (PStr k) ser s e sd ;;
            update_job_status jid "complete" ;;
            store_output jid) w1 in
  mkrun (outcome r) (final r) (w1 :: visited r).
Proof.
  intros H Hs He Hscan. unfold do_work.
  rewrite bind_run, (mark_started_run _ _ _ _ _ _ H). cbn [outcome final visited].
  set (w1 := with_job jid _ w).
  assert (H1 : jdb w1 !! jid = Some (Doc (job_doc jid "in progress" s e k)))
    by apply lookup_insert_eq.
  rewrite (readonly_bind_run _ _ _ (readonly_load_parameters jid)).
  rewrite (load_parameters_run _ _ _ _ _ _ H1), Hs, He. cbn [outcome].
  rewrite (readonly_bind_run _ _ _ (readonly_scan sd ed)).
  rewrite scan_run. cbn [outcome rd with_job w1]. rewrite Hscan.
  reflexivity.
Qed.

(** Whenever the scan of a submitted job finds no record (the lists are
    empty), [do_work] writes "in progress", raises ValueError, and writes
    nothing else: no "failed" status and no result. *)
Theorem no_data_raises (w : world) (jid s e k : string) (sd ed : date) (ser : series) :
  jdb w !! jid = Some (Doc (job_doc jid "submitted" s e k)) ->
  parse_date (PStr s) = Ok sd -> parse_date (PStr e) = Ok ed ->
  scan_result (rd w) sd ed = Ok ser ->
  velocities ser = [] ->
  do_work jid w =
  mkrun (Raise ValueError)
        (with_job jid (Doc (job_doc jid "in progress" s e k)) w)
        [with_job jid (Doc (job_doc jid "in progress" s e k)) w].
Proof.
  intros H Hs He Hscan Hv.
  rewrite (do_work_scanned w jid s e k sd ed ser H Hs He Hscan). cbv zeta.
  rewrite (readonly_bind_run _ _ _ (readonly_require_data ser)).
  unfold require_data. rewrite Hv. reflexivity.
Qed.

(** Whenever the kind of a submitted job is a str other than '1' and '2'
    and the scan finds a record, [do_work] writes "in progress", then
    "complete", and raises UnboundLocalError when it finds no plot file:
    the job is complete and no result is stored. *)
Theorem unknown_kind_completes (w : world) (jid s e k : string) (sd ed : date)
    (ser : series) :
  jdb w !! jid = Some (Doc (job_doc jid "submitted" s e k)) ->
  parse_date (PStr s) = Ok sd -> parse_date (PStr e) = Ok ed ->
  scan_result (rd w) sd ed = Ok ser ->
  velocities ser <> [] -> distances ser <> [] ->
  k <> "1" -> k <> "2" ->
  fs w !! plot_path jid = None ->
  do_work jid w =
  mkrun (Raise UnboundLocalError)
        (with_job jid (Doc (job_doc jid "complete" s e k)) w)
        [with_job jid (Doc (job_doc jid "in progress" s e k)) w;
         with_job jid (Doc (job_doc jid "complete" s e k))
           (with_job jid (Doc (job_doc jid "in progress" s e k)) w)] /\
  rdb (final (do_work jid w)) = rdb w.
Proof.
  intros H Hs He Hscan Hv Hd Hk1 Hk2 Hfs.
  rewrite (do_work_scanned w jid s e k sd ed ser H Hs He Hscan). cbv zeta.
  set (w1 := with_job jid _ w).
  assert (H1 : jdb w1 !! jid = Some (Doc (job_doc jid "in progress" s e k)))
    by apply lookup_insert_eq.
  rewrite (readonly_bind_run _ _ _ (readonly_require_data ser)).
  assert (Hreq : require_data ser w1 = mkrun (Ok tt) w1 []).
  { unfold require_data. destruct (velocities ser); [contradiction|].
    destruct (distances ser); [contradiction | reflexivity]. }
  rewrite Hreq. cbn [outcome].
  assert (Hplot : make_plot jid (PStr k) ser s e sd = ret tt).
  { unfold make_plot. cbn [py_eq_str].
    apply String.eqb_neq in Hk1, Hk2. now rewrite Hk1, Hk2. }
  rewrite Hplot, ret_bind, bind_run.
  rewrite (update_job_status_run _ _ _ _ _ _ _ H1). cbn [outcome final visited].
  rewrite store_output_run. cbn [fs with_job w1]. rewrite Hfs.
  cbn [outcome final visited app rdb with_job].
  split; [|reflexivity]. f_equal.
  subst w1. unfold with_job. cbn [rd q jdb rdb fs]. now rewrite insert_insert_eq.
Qed.

(** ** The final world of a run *)

Lemma default_last_app (l1 l2 : list world) (w : world) :
  default w (last (l1 ++ l2)) = default (default w (last l1)) (last l2).
Proof. rewrite last_app. destruct (last l2); reflexivity. Qed.

Lemma tracked_readonly {A} (m : M A) : readonly m -> tracked m.
Proof. intros H w. destruct (H w) as [-> ->]. reflexivity. Qed.

Lemma tracked_write (f : world -> world) : tracked (write f).
Proof. intros w. reflexivity. Qed.

Lemma tracked_bind {A B} (m : M A) (k : A -> M B) :
  tracked m -> (forall a, tracked (k a)) -> tracked (m ≫= k).
Proof.
  intros Hm Hk w. rewrite bind_run.
  destruct (outcome (m w)) as [a|e]; cbn [final visited].
  - rewrite default_last_app, <- Hm. apply Hk.
  - apply Hm.
Qed.

Lemma tracked_try {A} (m : M A) (h : exn -> M A) :
  tracked m -> (forall e, tracked (h e)) -> tracked (try_except m h).
Proof.
  intros Hm Hh w. unfold try_except.
  destruct (outcome (m w)) as [a|e]; cbn [final visited].
  - apply Hm.
  - rewrite default_last_app, <- Hm. apply Hh.
Qed.

Lemma tracked_q_get : tracked q_get.
Proof. intros w. unfold q_get. destruct (q w); reflexivity. Qed.

Ltac step_tracked :=
  repeat first
    [ apply tracked_readonly; solve [auto with ro]
    | apply tracked_write
    | apply tracked_q_get
    | apply tracked_bind; [| intros ?]
    | apply tracked_try; [| intros ?]
    | match goal with
      | |- tracked (match ?x with _ => _ end) => destruct x
      | |- tracked (if ?b then _ else _) => destruct b
      end ].

Lemma tracked_exec (o : op) : tracked (exec o).
Proof.
  destruct o as [body jid| |db]; cbn [exec].
  - unfold create_job, add_job, _save_job, _queue_job, jdb_set, q_put.
    step_tracked.
  - unfold work_once, do_work, mark_started, require_data, make_plot,
      store_output, savefig, fs_read, fs_write, rdb_set, update_job_status,
      _save_job, jdb_set.
    step_tracked.
  - apply tracked_write.
Qed.

(** A predicate that holds before a run and in every world it passes
    holds in the world it ends in. *)
Lemma final_of_visited {A} (P : world -> Prop) (m : M A) (w : world) :
  tracked m -> P w -> Forall P (visited (m w)) -> P (final (m w)).
Proof.
  intros Ht Hw Hv. rewrite Ht.
  destruct (last (visited (m w))) as [x|] eqn:Hl; cbn; [|assumption].
  apply last_Some in Hl as (l' & Hl). rewrite Hl in Hv.
  apply Forall_app in Hv as [_ Hx]. now inversion Hx.
Qed.

(** ** Job records and their status *)

Lemma length_append (s1 s2 : string) :
  String.length (s1 +:+ s2) = (String.length s1 + String.length s2)%nat.
Proof.
  induction s1 as [|a s1 IH]; [reflexivity|].
  change (S (String.length (s1 +:+ s2)) = S (String.length s1 + String.length s2)).
  f_equal. exact IH.
Qed.

Lemma append_inv_tail (s1 s2 t : string) : s1 +:+ t = s2 +:+ t -> s1 = s2.
Proof.
  revert s2. induction s1 as [|a s1 IH]; intros [|b s2] H.
  - reflexivity.
  - apply (f_equal String.length) in H.
    rewrite !length_append in H. cbn in H. lia.
  - apply (f_equal String.length) in H.
    rewrite !length_append in H. cbn in H. lia.
  - change (String a (s1 +:+ t) = String b (s2 +:+ t)) in H.
    injection H as -> H. f_equal. apply IH, H.
Qed.

Lemma result_key_inj (jid jid' : string) :
  result_key jid = result_key jid' -> jid = jid'.
Proof. apply append_inv_tail. Qed.


Lemma job_status_record (w : world) (jid st : string) :
  job_record w jid st -> job_status w jid = Some (PStr st).
Proof.
  intros (s & e & k & H). unfold job_status, get_job_by_id, jdb_get.
  rewrite read_bind, H. reflexivity.
Qed.

Lemma job_record_frame (w w' : world) (jid st : string) :
  jdb w' !! jid = jdb w !! jid -> job_record w jid st -> job_record w' jid st.
Proof. intros H (s & e & k & Hr). exists s, e, k. now rewrite H. Qed.

Lemma job_record_fun (w : world) (jid st st' : string) :
  job_record w jid st -> job_record w jid st' -> st = st'.
Proof.
  intros (s & e & k & H) (s' & e' & k' & H'). rewrite H in H'.
  now injection H'.
Qed.

(** ** The worlds of one operation are consistent *)

Lemma not_queued_fresh (w : world) (jid : string) :
  consistent w -> jdb w !! jid = None -> jid ∉ q w.
Proof.
  intros (_ & _ & Hq & _) Hnone Hin.
  destruct (Hq jid Hin) as [(s & e & k & Hr) _]. congruence.
Qed.

Lemma consistent_with_queue (w : world) (jid : string) (rest : list string) :
  consistent w -> q w = jid :: rest -> consistent (with_queue rest w).
Proof.
  intros (Ha & Hnd & Hq & Hr) Hw. rewrite Hw in Hnd, Hq.
  apply NoDup_cons in Hnd as [_ Hnd].
  split; [|split; [|split]]; try assumption.
  intros j Hj. apply (Hq j). now apply list_elem_of_further.
Qed.

(** The world in which the first two hypotheses hold is the one the
    worker starts from: the id has left the queue, its job is submitted
    and has no result. *)
Lemma consistent_started (w w' : world) (jid s e k : string) :
  consistent w -> jid ∉ q w -> rdb w !! result_key jid = None ->
  started_from w jid s e k w' -> consistent w'.
Proof.
  intros (Ha & Hnd & Hq & Hr) Hnq Hnone (Hrd & Hqq & Hrdb & Hjdb).
  assert (Hne : forall j, j <> jid -> jdb w' !! j = jdb w !! j).
  { intros j Hj. rewrite Hjdb. now apply lookup_insert_ne. }
  assert (Hin : job_record w' jid "in progress").
  { exists s, e, k. rewrite Hjdb. apply lookup_insert_eq. }
  unfold consistent. rewrite Hqq, Hrdb. split; [|split; [|split]].
  - intros j Hj. destruct (decide (j = jid)) as [->|Hd]; [auto|].
    rewrite (Hne j Hd) in Hj.
    destruct (Ha j Hj) as [H|[H|H]]; [left | right; left | right; right];
      exact (job_record_frame w w' j _ (Hne j Hd) H).
  - assumption.
  - intros j Hj. assert (Hd : j <> jid) by (intros ->; contradiction).
    destruct (Hq j Hj) as [H1 H2].
    split; [exact (job_record_frame w w' j _ (Hne j Hd) H1) | assumption].
  - intros j Hj. assert (Hd : j <> jid).
    { intros ->. rewrite Hnone in Hj. now destruct Hj. }
    exact (job_record_frame w w' j _ (Hne j Hd) (Hr j Hj)).
Qed.

Lemma consistent_completed (w w' : world) (jid s e k : string) :
  consistent w -> jid ∉ q w ->
  completed_from w jid s e k w' -> consistent w'.
Proof.
  intros (Ha & Hnd & Hq & Hr) Hnq (Hrd & Hqq & Hjdb & Hrdb).
  assert (Hne : forall j, j <> jid -> jdb w' !! j = jdb w !! j).
  { intros j Hj. rewrite Hjdb. now apply lookup_insert_ne. }
  assert (Hre : forall j, j <> jid -> rdb w' !! result_key j = rdb w !! result_key j).
  { intros j Hj. destruct Hrdb as [->|(b & ->)]; [reflexivity|].
    apply lookup_insert_ne. intros Heq. apply Hj. symmetry. now apply result_key_inj. }
  assert (Hin : job_record w' jid "complete").
  { exists s, e, k. rewrite Hjdb. apply lookup_insert_eq. }
  unfold consistent. rewrite Hqq. split; [|split; [|split]].
  - intros j Hj. destruct (decide (j = jid)) as [->|Hd]; [auto|].
    rewrite (Hne j Hd) in Hj.
    destruct (Ha j Hj) as [H|[H|H]]; [left | right; left | right; right];
      exact (job_record_frame w w' j _ (Hne j Hd) H).
  - assumption.
  - intros j Hj. assert (Hd : j <> jid) by (intros ->; contradiction).
    destruct (Hq j Hj) as [H1 H2]. rewrite (Hre j Hd).
    split; [exact (job_record_frame w w' j _ (Hne j Hd) H1) | assumption].
  - intros j Hj. destruct (decide (j = jid)) as [->|Hd]; [assumption|].
    rewrite (Hre j Hd) in Hj.
    exact (job_record_frame w w' j _ (Hne j Hd) (Hr j Hj)).
Qed.

Lemma work_once_run (w : world) (jid : string) (rest : list string) :
  q w = jid :: rest ->
  work_once w =
  mkrun (outcome (do_work jid (with_queue rest w)))
        (final (do_work jid (with_queue rest w)))
        (with_queue rest w :: visited (do_work jid (with_queue rest w))).
Proof.
  intros Hw. unfold work_once. rewrite bind_run. unfold q_get. rewrite Hw.
  reflexivity.
Qed.

(** The run of [work_once] on a consistent world with a queued id. *)
Lemma work_once_phases (w : world) (jid : string) (rest : list string) :
  consistent w -> q w = jid :: rest ->
  exists (s e k : string) (pre post : list world),
    jdb w !! jid = Some (Doc (job_doc jid "submitted" s e k)) /\
    rdb w !! result_key jid = None /\ (jid ∉ rest) /\
    visited (work_once w) = with_queue rest w :: (pre ++ post) /\
    pre <> [] /\
    Forall (started_from (with_queue rest w) jid s e k) pre /\
    Forall (completed_from (with_queue rest w) jid s e k) post.
Proof.
  intros Hc Hw. pose proof Hc as (Ha & Hnd & Hq & Hr).
  destruct (Hq jid) as [(s & e & k & Hrec) Hnone]; [rewrite Hw; constructor|].
  rewrite Hw in Hnd. apply NoDup_cons in Hnd as [Hnin _].
  destruct (do_work_phases (with_queue rest w) jid s e k Hrec)
    as (pre & post & Hv & Hpre & Hs & Hcm).
  exists s, e, k, pre, post. repeat split; try assumption.
  rewrite (work_once_run w jid rest Hw). cbn [visited]. now rewrite Hv.
Qed.

Lemma work_once_consistent (w : world) :
  consistent w -> Forall consistent (visited (work_once w)).
Proof.
  intros Hc. destruct (q w) as [|jid rest] eqn:Hw.
  - unfold work_once. rewrite bind_run. unfold q_get. rewrite Hw. constructor.
  - destruct (work_once_phases w jid rest Hc Hw)
      as (s & e & k & pre & post & Hrec & Hnone & Hnin & -> & _ & Hs & Hcm).
    pose proof (consistent_with_queue w jid rest Hc Hw) as Hc'.
    constructor; [assumption|]. apply Forall_app. split.
    + eapply Forall_impl; [exact Hs|]. intros w'.
      now apply consistent_started.
    + eapply Forall_impl; [exact Hcm|]. intros w'.
      now apply consistent_completed.
Qed.

(** [create_job] writes nothing, or the record and then the queue. *)
Lemma create_job_run (body : pyval) (jid : string) (w : world) :
  visited (create_job body jid w) = [] \/
  exists s e k,
    visited (create_job body jid w) =
      [with_job jid (Doc (job_doc jid "submitted" s e k)) w;
       with_queued jid (with_job jid (Doc (job_doc jid "submitted" s e k)) w)].
Proof.
  unfold create_job. destruct (py_truthy body); [|left; reflexivity]. cbn [negb].
  destruct (py_get body "start_date" PNone) as [sd|]; [|left; reflexivity].
  destruct (py_get body "end_date" PNone) as [ed|]; [|left; reflexivity].
  destruct (py_get body "kind" PNone) as [kd|]; [|left; reflexivity].
  cbn [lift]. rewrite !ret_bind.
  destruct (check_parameters sd ed kd) as [[r|]|] eqn:Hc; try (left; reflexivity).
  destruct (check_parameters_strs _ _ _ Hc) as (s & e & k & -> & -> & ->).
  right. exists s, e, k. cbn [lift]. rewrite ret_bind, read_bind, bind_run, add_job_strs.
  reflexivity.
Qed.

Lemma create_job_consistent (body : pyval) (jid : string) (w : world) :
  consistent w -> jdb w !! jid = None ->
  Forall consistent (visited (create_job body jid w)).
Proof.
  intros Hc Hfresh. pose proof Hc as (Ha & Hnd & Hq & Hr).
  destruct (create_job_run body jid w) as [->|(s & e & k & ->)]; [constructor|].
  assert (Hne : forall j, j <> jid ->
            <[jid := Doc (job_doc jid "submitted" s e k)]> (jdb w) !! j = jdb w !! j).
  { intros j Hj. now apply lookup_insert_ne. }
  assert (Hold : forall j st, job_record w j st ->
            job_record (with_job jid (Doc (job_doc jid "submitted" s e k)) w) j st).
  { intros j st Hj. apply (job_record_frame w); [|assumption].
    apply Hne. intros ->. destruct Hj as (? & ? & ? & Hj). congruence. }
  assert (Hnew : job_record (with_job jid (Doc (job_doc jid "submitted" s e k)) w)
                   jid "submitted").
  { exists s, e, k. apply lookup_insert_eq. }
  assert (Hnores : rdb w !! result_key jid = None).
  { destruct (rdb w !! result_key jid) eqn:Hres; [|reflexivity].
    destruct (Hr jid) as (? & ? & ? & Hj); [eauto | congruence]. }
  assert (C1 : consistent (with_job jid (Doc (job_doc jid "submitted" s e k)) w)).
  { split; [|split; [|split]]; cbn [q rdb with_job].
    - intros j Hj. destruct (decide (j = jid)) as [->|Hd]; [auto|].
      cbn in Hj. rewrite (Hne j Hd) in Hj.
      destruct (Ha j Hj) as [H|[H|H]]; eauto.
    - assumption.
    - intros j Hj. destruct (Hq j Hj). auto.
    - intros j Hj. auto. }
  constructor; [exact C1|]. constructor; [|constructor].
  destruct C1 as (Ha1 & _ & Hq1 & Hr1).
  split; [|split; [|split]]; cbn [q rdb jdb with_queued with_job] in *.
  - exact Ha1.
  - apply NoDup_app. split; [assumption|]. split; [|apply NoDup_singleton].
    intros j Hj Hj'. apply list_elem_of_singleton in Hj' as ->.
    now apply (not_queued_fresh w jid Hc).
  - intros j Hj. apply elem_of_app in Hj as [Hj|Hj].
    + apply (Hq1 j Hj).
    + apply list_elem_of_singleton in Hj as ->. split; assumption.
  - exact Hr1.
Qed.

Lemma visited_then_ret {A} (m : M A) (w : world) :
  visited ((m ;; ret tt) w) = visited (m w).
Proof.
  rewrite bind_run. destruct (outcome (m w)); cbn; [apply app_nil_r | reflexivity].
Qed.

(** Every operation takes a consistent world through consistent worlds,
    when the id it draws is new. *)
Lemma exec_consistent (o : op) (w : world) :
  consistent w ->
  match o with Submit _ jid => jdb w !! jid = None | _ => True end ->
  Forall consistent (visited (exec o w)).
Proof.
  intros Hc Hfresh. destruct o as [body jid| |db]; cbn [exec].
  - rewrite visited_then_ret. now apply create_job_consistent.
  - now apply work_once_consistent.
  - constructor; [exact Hc | constructor].
Qed.

Lemma states_consistent (ops : list op) (w : world) :
  consistent w -> fresh_ids ops w -> Forall consistent (w :: states ops w).
Proof.
  revert w. induction ops as [|o ops IH]; intros w Hc Hf; cbn [states].
  - constructor; [assumption | constructor].
  - destruct Hf as [Hf1 Hf2].
    pose proof (exec_consistent o w Hc Hf1) as Hv.
    pose proof (final_of_visited consistent (exec o) w (tracked_exec o) Hc Hv) as Hfin.
    specialize (IH _ Hfin Hf2). apply Forall_cons in IH as [_ IH].
    constructor; [assumption|]. apply Forall_app. split; assumption.
Qed.

Lemma initial_consistent (w : world) : initial w -> consistent w.
Proof.
  intros (Hq & Hj & Hr). unfold consistent. rewrite Hq, Hj, Hr.
  split; [|split; [|split]].
  - intros j Hj'. rewrite lookup_empty in Hj'. now destruct Hj'.
  - constructor.
  - intros j Hj'. inversion Hj'.
  - intros j Hj'. rewrite lookup_empty in Hj'. now destruct Hj'.
Qed.


(** ** Terminal statuses are final *)








Lemma last_Forall (P : world -> Prop) (l : list world) (w : world) :
  P w -> Forall P l -> P (default w (last l)).
Proof.
  intros Hw Hl. destruct (last l) as [x|] eqn:Hx; cbn; [|assumption].
  apply last_Some in Hx as (l' & ->). apply Forall_app in Hl as [_ Hl].
  now inversion Hl.
Qed.









(** ** One run of the worker *)

Lemma ue_jdb_set (jid : string) (w0 : world) (v : blob) :
  preserves (untouched_elsewhere jid w0) (jdb_set jid v).
Proof.
  apply preserves_write. intros w (H1 & H2 & H3 & H4 & H5).
  repeat split; cbn; try assumption.
  intros k Hk. rewrite lookup_insert_ne by congruence. now apply H3.
Qed.

Lemma ue_rdb_set (jid : string) (w0 : world) (v : blob) :
  preserves (untouched_elsewhere jid w0) (rdb_set (result_key jid) v).
Proof.
  apply preserves_write. intros w (H1 & H2 & H3 & H4 & H5).
  repeat split; cbn; try assumption.
  intros k Hk. rewrite lookup_insert_ne by congruence. now apply H4.
Qed.

Lemma ue_fs_write (jid : string) (w0 : world) (v : blob) :
  preserves (untouched_elsewhere jid w0) (fs_write (plot_path jid) v).
Proof.
  apply preserves_write. intros w (H1 & H2 & H3 & H4 & H5).
  repeat split; cbn; try assumption.
  intros k Hk. rewrite lookup_insert_ne by congruence. now apply H5.
Qed.

Lemma ue_update_job_status (jid status : string) (w0 : world) :
  preserves (untouched_elsewhere jid w0) (update_job_status jid status).
Proof.
  pose proof (ue_jdb_set jid w0).
  unfold update_job_status, _save_job. step_pres.
Qed.

Lemma ue_do_work (jid : string) (w0 : world) :
  preserves (untouched_elsewhere jid w0) (do_work jid).
Proof.
  pose proof (ue_update_job_status jid). pose proof (ue_rdb_set jid w0).
  pose proof (ue_fs_write jid w0).
  unfold do_work, mark_started, require_data, make_plot, store_output,
    savefig, fs_read.
  step_pres.
Qed.

(** [do_work] works on one job: in every world it passes, the NEO data
    and the queue are as before, and so are the records of the other
    jobs, the results under other keys and the other files. *)
Theorem do_work_touches_one_job (w : world) (jid : string) :
  Forall (untouched_elsewhere jid w) (visited (do_work jid w)) /\
  untouched_elsewhere jid w (final (do_work jid w)).
Proof.
  destruct (ue_do_work jid w w) as [Hf Hv]; [repeat split|]. split; assumption.
Qed.

Lemma scan_record_balanced (sd ed : date) (raw : option blob) (acc ser : series) :
  balanced acc -> scan_record sd ed raw acc = Ok ser -> balanced ser.
Proof.
  intros Hb. unfold scan_record.
  destruct raw as [raw|]; [|intros [= <-]; exact Hb].
  destruct (blob_truthy raw); cbn [negb]; [|intros [= <-]; exact Hb].
  destruct (loads_blob raw) as [neo|]; cbn [result_bind]; [|discriminate].
  destruct (py_get neo _ _) as [ds|]; cbn [result_bind]; [|discriminate].
  destruct (py_truthy ds); cbn [negb]; [|intros [= <-]; exact Hb].
  destruct (result_bind (clean_to_date_only ds) parse_date) as [d|[]];
    try discriminate; try (intros [= <-]; exact Hb).
  destruct (date_le sd d && date_le d ed); [|intros [= <-]; exact Hb].
  destruct (extract neo) as [[[[v di] m] r]|[]];
    try discriminate; try (intros [= <-]; exact Hb).
  intros [= <-]. destruct Hb as (H1 & H2 & H3 & H4).
  unfold balanced. cbn. rewrite !length_app. cbn. lia.
Qed.

Lemma scan_keys_balanced (db : gmap string blob) (sd ed : date) (keys : list string)
    (acc ser : series) :
  balanced acc -> scan_keys db sd ed keys acc = Ok ser -> balanced ser.
Proof.
  revert acc. induction keys as [|key keys IH]; intros acc Hb; cbn [scan_keys].
  - now intros [= <-].
  - destruct (scan_record sd ed (db !! key) acc) as [acc'|] eqn:Hr;
      cbn [result_bind]; [|discriminate].
    apply IH. exact (scan_record_balanced sd ed _ acc acc' Hb Hr).
Qed.

(** The five lists of the scan grow together: they have the same length
    when the loop ends, so one of [velocities] and [distances] is empty
    only if all are. *)
Theorem scan_lists_same_length (db : gmap string blob) (sd ed : date) (ser : series) :
  scan_result db sd ed = Ok ser -> balanced ser.
Proof.
  apply scan_keys_balanced. repeat split.
Qed.

(** ** Submission, results and the queue *)

(** The run of a job that succeeds: for a submitted job of kind '1' or
    '2' whose dates parse, whose scan finds a record and whose plot is
    drawn, [do_work] writes "in progress", the plot file, "complete" and
    the result, in this order, and returns; the results route then sends
    the image (if it is not empty). *)
Theorem do_work_succeeds (w : world) (jid s e k : string) (sd ed : date)
    (ser : series) (png : list Byte.byte) :
  jdb w !! jid = Some (Doc (job_doc jid "submitted" s e k)) ->
  parse_date (PStr s) = Ok sd -> parse_date (PStr e) = Ok ed ->
  scan_result (rd w) sd ed = Ok ser ->
  velocities ser <> [] -> distances ser <> [] ->
  (k = "1" /\ render (Hexbin (distances ser) (velocities ser) s e) = Some png \/
   k = "2" /\ render (MonthScatter (days ser) (velocities ser) (mags ser)
                        (raritys ser) (month sd) (year sd)) = Some png) ->
  png <> [] ->
  let w1 := with_job jid (Doc (job_doc jid "in progress" s e k)) w in
  let w2 := with_file (plot_path jid) (Raw png) w1 in
  let w3 := with_job jid (Doc (job_doc jid "complete" s e k)) w2 in
  let w4 := with_result (result_key jid) (Raw png) w3 in
  do_work jid w = mkrun (Ok tt) w4 [w1; w2; w3; w4] /\
  job_status w4 jid = Some (PStr "complete") /\
  outcome (get_results jid w4) = Ok (SendFile (Raw png)).
Proof.
  intros H Hs He Hscan Hv Hd Hk Hpng w1 w2 w3 w4.
  assert (H3 : jdb w3 !! jid = Some (Doc (job_doc jid "complete" s e k)))
    by apply lookup_insert_eq.
  split; [|split].
  - rewrite (do_work_scanned w jid s e k sd ed ser H Hs He Hscan). cbv zeta.
    fold w1.
    rewrite (readonly_bind_run _ _ _ (readonly_require_data ser)).
    assert (Hreq : require_data ser w1 = mkrun (Ok tt) w1 []).
    { unfold require_data. destruct (velocities ser); [contradiction|].
      destruct (distances ser); [contradiction | reflexivity]. }
    rewrite Hreq. cbn [outcome].
    assert (Hplot : make_plot jid (PStr k) ser s e sd w1 = mkrun (Ok tt) w2 [w2]).
    { unfold make_plot, savefig.
      destruct Hk as [[-> Hr]|[-> Hr]]; cbn [py_eq_str String.eqb Ascii.eqb Bool.eqb];
        rewrite Hr; reflexivity. }
    rewrite bind_run, Hplot. cbn [outcome final visited].
    assert (H2 : jdb w2 !! jid = Some (Doc (job_doc jid "in progress" s e k)))
      by apply lookup_insert_eq.
    rewrite bind_run, (update_job_status_run _ _ _ _ _ _ _ H2).
    cbn [outcome final visited]. fold w3.
    rewrite store_output_run.
    assert (Hfs : fs w3 !! plot_path jid = Some (Raw png)) by apply lookup_insert_eq.
    rewrite Hfs. reflexivity.
  - apply job_status_record. exists s, e, k. exact H3.
  - unfold get_results, rdb_get. rewrite read_bind.
    assert (Hr : rdb w4 !! result_key jid = Some (Raw png)) by apply lookup_insert_eq.
    rewrite Hr. destruct png as [|b png]; [contradiction|]. cbn [blob_truthy negb].
    rewrite (readonly_bind_run _ _ _ (readonly_get_job_by_id jid)).
    unfold get_job_by_id at 1, jdb_get. rewrite read_bind.
    change (jdb w4 !! jid) with (jdb w3 !! jid). rewrite H3.
    cbn [loads_blob lift ret outcome]. rewrite loads_job_doc.
    cbn. reflexivity.
Qed.

(** [add_job] with parameters [json.dumps] refuses (bytes, say) raises
    before anything is written: no record, and the id is not queued. *)
Theorem add_job_unserialisable (w : world) (start_date end_date kind status : pyval)
    (jid : string) (e : exn) :
  json_dumps (_instantiate_job jid status start_date end_date kind) = Raise e ->
  add_job start_date end_date kind status jid w = mkrun (Raise e) w [].
Proof.
  intros H. unfold add_job, _save_job. rewrite !bind_run. unfold mbind, M_bind, bind.
  rewrite H. reflexivity.
Qed.


(** Storing a result under one id does not change what [get_job_result]
    returns for another id, whatever is stored. *)
Theorem store_job_result_other_id (w : world) (job_id other : string) (v : pyval) :
  other <> job_id ->
  get_job_result other (final (store_job_result job_id v w)) =
  mkrun (outcome (get_job_result other w)) (final (store_job_result job_id v w)) [].
Proof.
  intros Hne.
  assert (Hfin : rdb (final (store_job_result job_id v w)) !! other = rdb w !! other).
  { unfold store_job_result, try_except, mbind, M_bind, bind.
    destruct (json_dumps v) as [j|e]; cbn; [|reflexivity].
    now apply lookup_insert_ne. }
  unfold get_job_result, try_except, rdb_get. rewrite !read_bind, Hfin.
  destruct (rdb w !! other) as [b|]; [|reflexivity].
  destruct (loads_blob b); reflexivity.
Qed.


(** In every world the system passes, the results route never fails and
    never answers "Job still in progress": it answers that the id is not
    found, or sends the stored result. *)
Theorem get_results_in_any_state (ops : list op) (w0 : world) :
  initial w0 -> fresh_ids ops w0 ->
  Forall (fun w => forall jid,
            outcome (get_results jid w) = Ok (Text ("Job ID not found" +:+ nl)) \/
            exists b, rdb w !! result_key jid = Some b /\
                      outcome (get_results jid w) = Ok (SendFile b))
         (w0 :: states ops w0).
Proof.
  intros Hi Hf.
  eapply Forall_impl; [apply states_consistent; [apply initial_consistent|]; eassumption|].
  intros w (_ & _ & _ & Hr) jid. cbn beta.
  unfold get_results, rdb_get. rewrite read_bind.
  destruct (rdb w !! result_key jid) as [b|] eqn:Hb; [|left; reflexivity].
  destruct (blob_truthy b); cbn [negb]; [|left; reflexivity].
  right. exists b. split; [reflexivity|].
  destruct (Hr jid) as (s & e & k & Hrec); [rewrite Hb; eauto|].
  rewrite (readonly_bind_run _ _ _ (readonly_get_job_by_id jid)).
  unfold get_job_by_id, jdb_get. rewrite read_bind, Hrec.
  cbn [loads_blob lift ret outcome]. rewrite loads_job_doc. cbn. reflexivity.
Qed.

(** In every world the system passes, no id is on the queue twice, and
    every queued job is still "submitted" and has no result. *)
Theorem queue_has_no_duplicates (ops : list op) (w0 : world) :
  initial w0 -> fresh_ids ops w0 ->
  Forall (fun w => NoDup (q w) /\
            forall jid, jid ∈ q w ->
              job_status w jid = Some (PStr "submitted") /\
              rdb w !! result_key jid = None)
         (w0 :: states ops w0).
Proof.
  intros Hi Hf.
  eapply Forall_impl; [apply states_consistent; [apply initial_consistent|]; eassumption|].
  intros w (_ & Hnd & Hq & _). split; [assumption|].
  intros jid Hin. destruct (Hq jid Hin) as [Hrec Hres].
  split; [now apply job_status_record | assumption].
Qed.

(** ** Dates and the checks of a submission *)

Lemma scan_record_days (sd ed : date) (raw : option blob) (acc ser : series) :
  year sd = year ed -> month sd = month ed ->
  Forall (fun x => day sd <= x <= day ed) (days acc) ->
  scan_record sd ed raw acc = Ok ser ->
  Forall (fun x => day sd <= x <= day ed) (days ser).
Proof.
  intros Hy Hm Hb. unfold scan_record.
  destruct raw as [raw|]; [|intros [= <-]; exact Hb].
  destruct (blob_truthy raw); cbn [negb]; [|intros [= <-]; exact Hb].
  destruct (loads_blob raw) as [neo|]; cbn [result_bind]; [|discriminate].
  destruct (py_get neo _ _) as [ds|]; cbn [result_bind]; [|discriminate].
  destruct (py_truthy ds); cbn [negb]; [|intros [= <-]; exact Hb].
  destruct (result_bind (clean_to_date_only ds) parse_date) as [d|[]];
    try discriminate; try (intros [= <-]; exact Hb).
  destruct (date_le sd d && date_le d ed) eqn:Hr; [|intros [= <-]; exact Hb].
  destruct (extract neo) as [[[[v di] m] r]|[]];
    try discriminate; try (intros [= <-]; exact Hb).
  intros [= <-]. cbn [days]. apply Forall_app. split; [exact Hb|].
  constructor; [|constructor].
  apply andb_true_iff in Hr as [H1 H2]. unfold date_le in H1, H2.
  rewrite Hy, Hm in H1.
  destruct (Z.ltb_spec (year ed) (year d)), (Z.ltb_spec (year d) (year ed)),
    (Z.eqb_spec (year ed) (year d)), (Z.eqb_spec (year d) (year ed)),
    (Z.ltb_spec (month ed) (month d)), (Z.ltb_spec (month d) (month ed)),
    (Z.eqb_spec (month ed) (month d)), (Z.eqb_spec (month d) (month ed)),
    (Z.leb_spec (day sd) (day d)), (Z.leb_spec (day d) (day ed));
    cbn in H1, H2; try discriminate; lia.
Qed.

(** When the range lies within one month (as [create_job] demands for
    kind '2'), every day of the month the scan collects lies between the
    day of the start and the day of the end. *)
Theorem scan_days_in_range (db : gmap string blob) (sd ed : date) (ser : series) :
  year sd = year ed -> month sd = month ed ->
  scan_result db sd ed = Ok ser ->
  Forall (fun x => day sd <= x <= day ed) (days ser).
Proof.
  intros Hy Hm. unfold scan_result.
  assert (H0 : Forall (fun x => day sd <= x <= day ed) (days empty_series))
    by constructor.
  revert H0. generalize empty_series as acc. generalize (map fst (map_to_list db)) as keys.
  induction keys as [|key keys IH]; intros acc Hb; cbn [scan_keys].
  - now intros [= <-].
  - destruct (scan_record sd ed (db !! key) acc) as [acc'|] eqn:Hr;
      cbn [result_bind]; [|discriminate].
    apply IH. exact (scan_record_days sd ed _ acc acc' Hy Hm Hb Hr).
Qed.

Lemma digit_val_bounds (a : ascii) (d : Z) : digit_val a = Some d -> 0 <= d <= 9.
Proof.
  unfold digit_val. destruct (Nat.leb 48 (nat_of_ascii a)) eqn:H1; [|discriminate].
  destruct (Nat.leb (nat_of_ascii a) 57) eqn:H2; [|discriminate].
  cbn. intros [= <-]. apply Nat.leb_le in H1, H2. lia.
Qed.

Lemma index_of_bounds (x : string) (l : list string) (i m : Z) :
  index_of x l i = Some m -> i <= m < i + Z.of_nat (length l).
Proof.
  revert i. induction l as [|y l IH]; intros i; cbn [index_of]; [discriminate|].
  destruct (String.eqb x y).
  - intros [= <-]. cbn [length]. lia.
  - intros H. apply IH in H. cbn [length]. lia.
Qed.

Lemma day_of_bounds (rest : list ascii) (d : Z) : day_of rest = Some d -> 1 <= d <= 31.
Proof.
  unfold day_of. destruct rest as [|a [|b [|c rest]]]; try discriminate.
  - destruct (digit_val a) as [x|] eqn:Ha; [|discriminate].
    apply digit_val_bounds in Ha.
    destruct (Z.leb_spec 1 x); [|discriminate]. intros [= <-]. lia.
  - destruct (digit_val a) as [x|] eqn:Ha; destruct (digit_val b) as [y|] eqn:Hb;
      try discriminate.
    + apply digit_val_bounds in Ha, Hb.
      destruct (Z.eqb_spec x 3), (Z.leb_spec y 1), (Z.leb_spec 1 x), (Z.leb_spec x 2),
        (Z.eqb_spec x 0), (Z.leb_spec 1 y); cbn; try discriminate;
        intros [= <-]; lia.
    + apply digit_val_bounds in Hb.
      destruct (Ascii.eqb a " "), (Z.leb_spec 1 y); cbn; try discriminate.
      intros [= <-]. lia.
Qed.

Lemma int_digits_four (a b c d : ascii) (y : Z) :
  int_digits 0 false [a; b; c; d] = Some y ->
  is_digit a && is_digit b && is_digit c && is_digit d = true ->
  0 <= y <= 9999.
Proof.
  unfold is_digit. cbn [int_digits].
  destruct (digit_val a) as [x1|] eqn:H1; [|discriminate 2].
  destruct (digit_val b) as [x2|] eqn:H2; [|discriminate 2].
  destruct (digit_val c) as [x3|] eqn:H3; [|discriminate 2].
  destruct (digit_val d) as [x4|] eqn:H4; [|discriminate 2].
  apply digit_val_bounds in H1, H2, H3, H4. intros [= <-] _. lia.
Qed.

Lemma strptime_valid (t : string) (d : date) :
  strptime t = Some d ->
  1 <= year d <= 9999 /\ 1 <= month d <= 12 /\
  1 <= day d <= days_in_month (year d) (month d).
Proof.
  unfold strptime.
  destruct (list_ascii_of_string t)
    as [|y1 [|y2 [|y3 [|y4 [|c1 [|m1 [|m2 [|m3 [|c2 rest]]]]]]]]];
    try discriminate.
  all: destruct (Ascii.eqb_spec c1 "-") as [->|Hc1];
    [| destruct c1 as [[] [] [] [] [] [] [] []]; try discriminate; now destruct Hc1].
  all: try discriminate.
  destruct (Ascii.eqb_spec c2 "-") as [->|Hc2].
  2:{ destruct c2 as [[] [] [] [] [] [] [] []]; try discriminate; now destruct Hc2. }
  destruct (int_digits 0 false [y1; y2; y3; y4]) as [y|] eqn:Hy; [|discriminate].
  destruct (is_digit y1 && is_digit y2 && is_digit y3 && is_digit y4) eqn:Hd;
    [|discriminate].
  destruct (month_of_abbr m1 m2 m3) as [m|] eqn:Hm; [|discriminate].
  destruct (day_of rest) as [dd|] eqn:Hdd; [|discriminate].
  destruct (Z.leb_spec 1 y); cbn [andb]; [|discriminate].
  destruct (Z.leb_spec dd (days_in_month y m)); [|discriminate].
  intros [= <-]. cbn [year month day].
  pose proof (int_digits_four _ _ _ _ _ Hy Hd).
  apply index_of_bounds in Hm. cbn [length month_abbrs] in Hm.
  apply day_of_bounds in Hdd. lia.
Qed.

(** Whatever [parse_date] returns is a date of the calendar: the year is
    1..9999, the month 1..12 and the day one the month has. *)
Theorem parse_date_valid (v : pyval) (d : date) :
  parse_date v = Ok d ->
  1 <= year d <= 9999 /\ 1 <= month d <= 12 /\
  1 <= day d <= days_in_month (year d) (month d).
Proof.
  destruct v; try discriminate. cbn [parse_date].
  destruct (strptime (strip s)) as [d'|] eqn:H; [|discriminate].
  intros [= <-]. exact (strptime_valid _ _ H).
Qed.

(** What [create_job] accepts: three strs, both dates matching the
    pattern, the kind '1' or '2', the day of the start not after the day
    of the end, and for kind '2' the same year and month in both. *)
Theorem accepted_parameters (start_date end_date kind : pyval) :
  check_parameters start_date end_date kind = Ok None ->
  exists s e k d1 d2,
    start_date = PStr s /\ end_date = PStr e /\ kind = PStr k /\
    re_date_match s = true /\ re_date_match e = true /\ (k = "1" \/ k = "2") /\
    day_field start_date = Ok d1 /\ day_field end_date = Ok d2 /\ d1 <= d2 /\
    (k = "2" ->
     dash_part start_date 0 = dash_part end_date 0 /\
     dash_part start_date 1 = dash_part end_date 1).
Proof.
  intros Hc.
  destruct (check_parameters_strs _ _ _ Hc) as (s & e & k & -> & -> & ->).
  unfold check_parameters in Hc.
  cbn [is_none orb date_pattern_matches result_bind] in Hc.
  destruct (re_date_match s) eqn:Hs; [|discriminate Hc].
  cbn [result_bind date_pattern_matches] in Hc.
  destruct (re_date_match e) eqn:He; [|discriminate Hc].
  cbn [andb py_eq_str] in Hc.
  assert (Hk : k = "1" \/ k = "2").
  { destruct (String.eqb_spec k "1"); [now left|].
    destruct (String.eqb_spec k "2"); [now right | discriminate Hc]. }
  assert (Hkind : (k =? "1")%string || (k =? "2")%string = true).
  { destruct Hk as [->| ->]; reflexivity. }
  rewrite Hkind in Hc. cbn [negb] in Hc.
  match type of Hc with
  | result_bind ?m _ = _ => destruct m as [[]|] eqn:Hmonth; cbn [result_bind] in Hc;
                              try discriminate Hc
  end.
  destruct (day_field (PStr s)) as [d1|] eqn:Hd1; cbn [result_bind] in Hc;
    [|discriminate Hc].
  destruct (day_field (PStr e)) as [d2|] eqn:Hd2; cbn [result_bind] in Hc;
    [|discriminate Hc].
  destruct (Z.ltb_spec d2 d1); [discriminate Hc|].
  assert (Hsame : k = "2" ->
            dash_part (PStr s) 0 = dash_part (PStr e) 0 /\
            dash_part (PStr s) 1 = dash_part (PStr e) 1).
  { intros ->. cbn [py_eq_str String.eqb Ascii.eqb Bool.eqb] in Hmonth.
    destruct (dash_part (PStr s) 0) as [y1|]; cbn [result_bind] in Hmonth;
      [|discriminate].
    destruct (dash_part (PStr e) 0) as [y2|]; cbn [result_bind] in Hmonth;
      [|discriminate].
    destruct (String.eqb_spec y1 y2); cbn [negb] in Hmonth; [|discriminate].
    destruct (dash_part (PStr s) 1) as [b1|]; cbn [result_bind] in Hmonth;
      [|discriminate].
    destruct (dash_part (PStr e) 1) as [b2|]; cbn [result_bind] in Hmonth;
      [|discriminate].
    destruct (String.eqb_spec b1 b2); cbn [negb] in Hmonth; [|discriminate].
    split; congruence. }
  exists s, e, k, d1, d2. split_and!; try assumption; reflexivity.
Qed.

(** ** Statuses only advance *)













(** ** Updating any record; listing the jobs *)

Section json_induction.
Variable P : json -> Prop.
Hypothesis HNull : P JNull.
Hypothesis HBool : forall b, P (JBool b).
Hypothesis HInt : forall z, P (JInt z).
Hypothesis HFloat : forall f, P (JFloat f).
Hypothesis HStr : forall s, P (JStr s).
Hypothesis HArr : forall l, Forall P l -> P (JArr l).
Hypothesis HObj : forall ms, Forall (fun kv => P (snd kv)) ms -> P (JObj ms).

End json_induction.







(** The ids [list_jobs] answers are exactly the ids that have a record,
    each once; with no record at all it answers a message. *)
Theorem list_jobs_lists_records (w : world) :
  (jdb w = ∅ /\
   list_jobs w = mkrun (Ok (Jsonify (PStr "No job ID's currently"))) w []) \/
  (exists ids,
     list_jobs w = mkrun (Ok (Jsonify (PList (map PStr ids)))) w [] /\
     NoDup ids /\ forall jid, jid ∈ ids <-> is_Some (jdb w !! jid)).
Proof.
  unfold list_jobs. rewrite read_bind.
  destruct (map fst (map_to_list (jdb w))) as [|k ks] eqn:Hk.
  - left. split; [|reflexivity].
    apply map_to_list_empty_iff. now apply fmap_nil_inv in Hk.
  - right. exists (k :: ks). split; [reflexivity|]. rewrite <- Hk. split.
    + apply NoDup_fst_map_to_list.
    + intros jid. rewrite list_elem_of_fmap. split.
      * intros ([j b] & -> & Hin). apply elem_of_map_to_list in Hin. cbn. eauto.
      * intros [b Hb]. exists (jid, b). split; [reflexivity|].
        now apply elem_of_map_to_list.
Qed.

(** ** The other routes *)

Lemma list_ascii_of_append (s t : string) :
  list_ascii_of_string (s +:+ t) = list_ascii_of_string s ++ list_ascii_of_string t.
Proof.
  induction s as [|a s IH]; [reflexivity|].
  change (String a s +:+ t) with (String a (s +:+ t)). cbn. now rewrite IH.
Qed.

Lemma split_ws_no_space (s : string) (cur : option string) :
  (forall c, cur = Some c -> no_space c = true) ->
  Forall (fun p => no_space p = true) (split_ws cur s).
Proof.
  revert cur. induction s as [|a s IH]; intros cur Hcur; cbn [split_ws].
  - destruct cur as [c|]; [|constructor]. constructor; [now apply Hcur | constructor].
  - destruct (is_space a) eqn:Ha.
    + destruct cur as [c|].
      * constructor; [now apply Hcur|]. apply IH. discriminate.
      * apply IH. discriminate.
    + apply IH. intros c [= <-]. unfold no_space.
      rewrite list_ascii_of_append, forallb_app. cbn. rewrite Ha. cbn.
      rewrite andb_true_r. destruct cur as [c|]; [now apply Hcur | reflexivity].
Qed.

Lemma split_ws_nil (s : string) (cur : option string) :
  split_ws cur s = [] -> cur = None /\ rstrip s = EmptyString.
Proof.
  revert cur. induction s as [|a s IH]; intros cur; cbn [split_ws rstrip].
  - destruct cur; [discriminate | auto].
  - destruct (is_space a).
    + destruct cur; [discriminate|]. intros H. destruct (IH _ H) as [_ ->]. auto.
    + intros H. destruct (IH _ H) as [H' _]. discriminate H'.
Qed.

(** [clean_to_date_only] never fails on a str, and what it returns for a
    str that is not empty has no whitespace in it: the time of day and
    the uncertainty are gone. For the empty str it returns one space. *)
Theorem clean_to_date_only_no_space (s : string) :
  exists p, clean_to_date_only (PStr s) = Ok (PStr p) /\
            (s = EmptyString -> p = " ") /\
            (s <> EmptyString -> no_space p = true).
Proof.
  destruct s as [|a s].
  - exists " ". split; [reflexivity|]. split; [reflexivity | now intros []].
  - unfold clean_to_date_only. cbn [py_truthy negb].
    set (t := if str_contains plus_minus (String a s)
              then strip (hd EmptyString (py_split plus_minus (String a s)))
              else String a s).
    destruct (split_ws None t) as [|p l] eqn:Hsp.
    + exists (strip t). split; [reflexivity|]. split; [discriminate|]. intros _.
      apply split_ws_nil in Hsp as [_ Hr]. unfold strip. now rewrite Hr.
    + exists p. split; [reflexivity|]. split; [discriminate|]. intros _.
      pose proof (split_ws_no_space t None) as HF. rewrite Hsp in HF.
      apply Forall_cons in HF as [Hp _]; [exact Hp | discriminate].
Qed.

(** [delete_neo_data] always answers that the database is flushed (the
    other answer is never given); it empties the NEO data and leaves the
    jobs, the queue and the results; a scan that follows collects
    nothing, whatever the range. *)
Theorem delete_neo_data_flushes (w : world) :
  delete_neo_data w =
    mkrun (Ok (Text ("Database flushed" +:+ nl))) (with_data ∅ w) [with_data ∅ w] /\
  forall sd ed,
    scan sd ed (final (delete_neo_data w)) =
      mkrun (Ok empty_series) (with_data ∅ w) [].
Proof.
  assert (H : delete_neo_data w =
    mkrun (Ok (Text ("Database flushed" +:+ nl))) (with_data ∅ w) [with_data ∅ w]).
  { unfold delete_neo_data. unfold mbind, M_bind, bind, write, read. cbn.
    rewrite map_to_list_empty. reflexivity. }
  split; [exact H|]. intros sd ed. rewrite H. cbn [final].
  unfold scan. rewrite read_bind. cbn [rd with_data lift].
  unfold scan_result. rewrite map_to_list_empty. reflexivity.
Qed.


(** ** [create_job] has an answer for every str *)

Lemma append_snoc (cur : string) (a : ascii) (r : string) :
  (cur +:+ String a EmptyString) +:+ r = cur +:+ String a r.
Proof.
  induction cur as [|c cur IH]; [reflexivity|].
  change ((String c cur +:+ String a EmptyString) +:+ r)
    with (String c ((cur +:+ String a EmptyString) +:+ r)).
  change (String c cur +:+ String a r) with (String c (cur +:+ String a r)).
  now rewrite IH.
Qed.

Lemma split_on_dash (cur r : string) :
  split_on "-" 0 cur (String "-" r) = cur :: split_on "-" 0 EmptyString r.
Proof.
  cbn [split_on String.prefix String.length Nat.sub].
  destruct (ascii_dec "-" "-") as [_|E]; [now destruct r | now destruct E].
Qed.

Lemma split_on_other (a : ascii) (cur r : string) :
  a <> "-"%char ->
  split_on "-" 0 cur (String a r) = split_on "-" 0 (cur +:+ String a EmptyString) r.
Proof.
  intros Ha. cbn [split_on String.prefix].
  destruct (ascii_dec "-" a) as [E|_]; [now destruct Ha | reflexivity].
Qed.

Lemma digit_cases (a : ascii) :
  is_digit a = true ->
  In a ["0"; "1"; "2"; "3"; "4"; "5"; "6"; "7"; "8"; "9"]%char.
Proof.
  destruct a as [[] [] [] [] [] [] [] []]; cbn; intros H; try discriminate H; tauto.
Qed.

Lemma digit_not_dash (a : ascii) : is_digit a = true -> a <> "-"%char.
Proof. intros H ->. discriminate H. Qed.

Lemma month_name_cases (m1 m2 m3 : ascii) :
  existsb (String.eqb (String m1 (String m2 (String m3 EmptyString)))) month_names = true ->
  m1 <> "-"%char /\ m2 <> "-"%char /\ m3 <> "-"%char.
Proof.
  intros H. apply existsb_exists in H as (x & Hin & Hx).
  apply String.eqb_eq in Hx. subst x.
  cbn in Hin.
  repeat (destruct Hin as [Hin|Hin];
          [injection Hin as <- <- <-; repeat split; discriminate|]).
  destruct Hin.
Qed.

(** The day field of a str that matches the pattern is an int. *)
Lemma day_of_matched (d1 d2 : ascii) (rest : list ascii) :
  is_digit d1 = true -> is_digit d2 = true ->
  match rest with
  | [] => true
  | [c] => Ascii.eqb c (ascii_of_nat 10)
  | _ => false
  end = true ->
  (forall cur, split_on "-" 0 cur (string_of_list_ascii (d1 :: d2 :: rest)) =
               [cur +:+ string_of_list_ascii (d1 :: d2 :: rest)]) /\
  exists z, int_of_str (string_of_list_ascii (d1 :: d2 :: rest)) = Some z.
Proof.
  intros H1 H2 Hr.
  assert (Hrest : rest = [] \/ rest = [ascii_of_nat 10]).
  { destruct rest as [|c [|c' rest]]; [now left | | discriminate Hr].
    apply Ascii.eqb_eq in Hr as ->. now right. }
  apply digit_cases in H1, H2. cbn [In] in H1, H2.
  split.
  - intros cur.
    cbn [string_of_list_ascii].
    rewrite (split_on_other d1) by (apply digit_not_dash;
      repeat (destruct H1 as [<-|H1]; [reflexivity|]); destruct H1).
    rewrite (split_on_other d2) by (apply digit_not_dash;
      repeat (destruct H2 as [<-|H2]; [reflexivity|]); destruct H2).
    destruct Hrest as [-> | ->]; cbn [string_of_list_ascii].
    + cbn [split_on]. now rewrite !append_snoc.
    + rewrite (split_on_other (ascii_of_nat 10)) by discriminate.
      cbn [split_on]. now rewrite !append_snoc.
  - repeat (destruct H1 as [<-|H1];
            [repeat (destruct H2 as [<-|H2];
                     [destruct Hrest as [-> | ->]; eexists; reflexivity|]);
             destruct H2|]).
    destruct H1.
Qed.

(** The three fields of a str that matches the pattern of [create_job]. *)
Lemma matched_fields (s : string) :
  re_date_match s = true ->
  exists y m d z,
    py_split "-" s = [y; m; d] /\ int_of_str d = Some z.
Proof.
  unfold re_date_match. intros H.
  rewrite <- (string_of_list_ascii_of_string s).
  destruct (list_ascii_of_string s)
    as [|y1 [|y2 [|y3 [|y4 [|c1 [|m1 [|m2 [|m3 [|c2 [|d1 [|d2 rest]]]]]]]]]]];
    try discriminate H.
  all: destruct (Ascii.eqb_spec c1 "-") as [->|Hc1];
    [| destruct c1 as [[] [] [] [] [] [] [] []]; try discriminate H; now destruct Hc1].
  all: try discriminate H.
  all: destruct (Ascii.eqb_spec c2 "-") as [->|Hc2];
    [| destruct c2 as [[] [] [] [] [] [] [] []]; try discriminate H; now destruct Hc2].
  all: try discriminate H.
  repeat (apply andb_true_iff in H as [H ?]).
  destruct (month_name_cases m1 m2 m3) as (Hm1 & Hm2 & Hm3); [assumption|].
  destruct (day_of_matched d1 d2 rest) as [Hsplit (z & Hz)]; try assumption.
  exists (string_of_list_ascii [y1; y2; y3; y4]), (string_of_list_ascii [m1; m2; m3]),
         (string_of_list_ascii (d1 :: d2 :: rest)), z.
  split; [|exact Hz].
  unfold py_split.
  change (string_of_list_ascii
            (y1 :: y2 :: y3 :: y4 :: "-"%char :: m1 :: m2 :: m3 :: "-"%char :: d1 :: d2 :: rest))
    with (String y1 (String y2 (String y3 (String y4 (String "-"
            (String m1 (String m2 (String m3 (String "-"
               (string_of_list_ascii (d1 :: d2 :: rest))))))))))).
  rewrite !split_on_other by (first [assumption | now apply digit_not_dash]).
  rewrite split_on_dash.
  rewrite !split_on_other by assumption.
  rewrite split_on_dash, Hsplit. reflexivity.
Qed.

(** The checks of [create_job] do not fail on strs: whatever the three
    strs are, the route has an answer for them. *)
Lemma check_parameters_strs_ok (s e k : string) :
  exists v, check_parameters (PStr s) (PStr e) (PStr k) = Ok v.
Proof.
  unfold check_parameters. cbn [is_none orb date_pattern_matches result_bind].
  destruct (re_date_match s) eqn:Hs; cbn [result_bind date_pattern_matches andb negb];
    [|eauto].
  destruct (re_date_match e) eqn:He; cbn [result_bind andb negb]; [|eauto].
  destruct (py_eq_str (PStr k) "1" || py_eq_str (PStr k) "2"); cbn [negb]; [|eauto].
  destruct (matched_fields s Hs) as (y1 & b1 & f1 & z1 & Hp1 & Hz1).
  destruct (matched_fields e He) as (y2 & b2 & f2 & z2 & Hp2 & Hz2).
  unfold day_field, dash_part. rewrite Hp1, Hp2. cbn [nth_error result_bind].
  rewrite Hz1, Hz2.
  destruct (py_eq_str (PStr k) "2"); cbn [result_bind].
  - destruct (String.eqb y1 y2); cbn [negb result_bind]; [|eauto].
    destruct (String.eqb b1 b2); cbn [negb result_bind]; [|eauto].
    destruct (z2 <? z1); eauto.
  - destruct (z2 <? z1); eauto.
Qed.

(** [create_job] answers every request whose three parameters are strs
    or missing: it raises (an HTTP 500) for none of them. *)
Theorem create_job_answers_strs (w : world) (body : pyval) (jid : string)
    (start_date end_date kind : pyval) :
  py_get body "start_date" PNone = Ok start_date ->
  py_get body "end_date" PNone = Ok end_date ->
  py_get body "kind" PNone = Ok kind ->
  (is_str start_date || is_none start_date) &&
  (is_str end_date || is_none end_date) &&
  (is_str kind || is_none kind) = true ->
  exists r, outcome (create_job body jid w) = Ok r.
Proof.
  intros Hs He Hk Hty. unfold create_job.
  destruct (py_truthy body); cbn [negb]; [|eexists; reflexivity].
  rewrite Hs, He, Hk. cbn [lift]. rewrite !ret_bind.
  assert (Hv : exists v, check_parameters start_date end_date kind = Ok v).
  { destruct (is_none start_date || is_none end_date || is_none kind) eqn:Hn.
    - unfold check_parameters. rewrite Hn. eauto.
    - destruct start_date, end_date, kind; try discriminate Hty; try discriminate Hn.
      apply check_parameters_strs_ok. }
  destruct Hv as [[r|] Hv]; rewrite Hv; cbn [lift]; rewrite ret_bind.
  - eexists. reflexivity.
  - destruct (check_parameters_strs _ _ _ Hv) as (s & e & k & -> & -> & ->).
    rewrite read_bind, bind_run, add_job_strs. eexists. reflexivity.
Qed.

(** ** What the scan tolerates *)

Lemma clean_to_date_only_str (s : string) :
  exists p, clean_to_date_only (PStr s) = Ok (PStr p).
Proof.
  unfold clean_to_date_only. destruct (negb (py_truthy (PStr s))); [eauto|].
  destruct (split_ws None _); eauto.
Qed.

Lemma py_float_raises (x : pyval) (e : exn) :
  py_float x = Raise e -> e = OverflowError \/ e = ValueError \/ e = TypeError.
Proof.
  destruct x; cbn; try (intros [= <-]; auto); try discriminate.
  - destruct (float_of_int _); [discriminate | intros [= <-]; auto].
  - destruct (float_of_int _); [discriminate | intros [= <-]; auto].
  - destruct (float_of_str _); [discriminate | intros [= <-]; auto].
Qed.

Lemma extract_raises (d : list (pyval * pyval)) (e : exn) :
  extract (PDict d) = Raise e -> e = OverflowError \/ e = ValueError \/ e = TypeError.
Proof.
  unfold extract. cbn [py_get result_bind].
  repeat match goal with
  | |- context [py_float ?x] =>
      let H := fresh "H" in
      destruct (py_float x) eqn:H; cbn [result_bind];
      [| intros [= <-]; exact (py_float_raises _ _ H)]
  end.
  discriminate.
Qed.

Lemma scan_record_dated (sd ed : date) (b : blob) (acc : series) (e : exn) :
  dated_record b = true ->
  scan_record sd ed (Some b) acc = Raise e -> e = OverflowError.
Proof.
  unfold dated_record, scan_record. intros Hd.
  destruct (blob_truthy b); cbn [negb]; [|discriminate].
  destruct (loads_blob b) as [neo|]; cbn [result_bind] in *; [|discriminate Hd].
  destruct (py_get neo _ _) as [ds|] eqn:Hg; cbn [result_bind]; [|discriminate Hd].
  destruct ds as [| | | |s| | | |]; try discriminate Hd.
  destruct (py_truthy (PStr s)); cbn [negb]; [|discriminate].
  destruct (clean_to_date_only_str s) as [p ->]. cbn [result_bind parse_date].
  destruct (strptime (strip p)); [|discriminate].
  destruct (date_le sd _ && date_le _ ed); [|discriminate].
  destruct neo as [| | | | | | | |items]; try discriminate Hg.
  destruct (extract (PDict items)) as [[[[v di] m] r]|e'] eqn:He; [discriminate|].
  destruct (extract_raises items e' He) as [->|[->| ->]]; try discriminate.
  now intros [= <-].
Qed.

Lemma scan_result_raises (db : gmap string blob) (sd ed : date) (e : exn) :
  (forall key b, db !! key = Some b -> dated_record b = true) ->
  scan_result db sd ed = Raise e -> e = OverflowError.
Proof.
  intros Hdb. unfold scan_result.
  generalize empty_series as acc. generalize (map fst (map_to_list db)) as keys.
  induction keys as [|key keys IH]; intros acc; cbn [scan_keys]; [discriminate|].
  destruct (scan_record sd ed (db !! key) acc) as [acc'|e'] eqn:Hr; cbn [result_bind].
  - apply IH.
  - intros [= <-]. destruct (db !! key) as [b|] eqn:Hb; [|discriminate Hr].
    exact (scan_record_dated sd ed b acc e' (Hdb key b Hb) Hr).
Qed.

(** The scan tolerates bad fields: when every stored value is a JSON
    object whose date is a str or missing, a date that does not parse or
    a number that is none only skips the record; the scan ends, unless
    an int is too large for a float (OverflowError). *)
Theorem scan_tolerates_bad_fields (db : gmap string blob) (sd ed : date) :
  (forall key b, db !! key = Some b -> dated_record b = true) ->
  (exists ser, scan_result db sd ed = Ok ser) \/
  scan_result db sd ed = Raise OverflowError.
Proof.
  intros Hdb. destruct (scan_result db sd ed) as [ser|e] eqn:Hs; [eauto|].
  right. now rewrite (scan_result_raises db sd ed e Hdb Hs).
Qed.

Lemma scan_keys_corrupt (db : gmap string blob) (sd ed : date) (key : string)
    (bytes : list Byte.byte) (keys : list string) (acc : series) :
  db !! key = Some (Raw bytes) -> bytes <> [] -> key ∈ keys ->
  exists e, scan_keys db sd ed keys acc = Raise e.
Proof.
  intros Hk Hb. revert acc. induction keys as [|k keys IH]; intros acc Hin.
  - inversion Hin.
  - cbn [scan_keys].
    destruct (scan_record sd ed (db !! k) acc) as [acc'|e'] eqn:Hr; cbn [result_bind];
      [|eauto].
    apply elem_of_cons in Hin as [<-|Hin]; [|now apply IH].
    rewrite Hk in Hr. unfold scan_record in Hr.
    destruct bytes; [contradiction | discriminate Hr].
Qed.

(** One stored value that is no JSON at all fails the whole scan, and
    with it the job: [json.loads] is outside the [try] blocks of the
    loop. *)
Theorem scan_fails_on_corrupt_record (db : gmap string blob) (sd ed : date)
    (key : string) (bytes : list Byte.byte) :
  db !! key = Some (Raw bytes) -> bytes <> [] ->
  exists e, scan_result db sd ed = Raise e.
Proof.
  intros Hk Hb. apply (scan_keys_corrupt db sd ed key bytes); try assumption.
  apply list_elem_of_fmap. exists (key, Raw bytes). split; [reflexivity|].
  now apply elem_of_map_to_list.
Qed.

End Properties.

(** * The model on the sample data *)

Section Samples.
#[local] Existing Instance test_runtime.

(** The cases of test/test_worker.py for [clean_to_date_only] and
    [parse_date]. *)
Example test_clean_date_only_standard :
  clean_to_date_only (PStr "2024-Jan-23 14:52") = Ok (PStr "2024-Jan-23").
Proof. reflexivity. Qed.

Example test_clean_date_with_uncertainty :
  clean_to_date_only (PStr ("2024-Jan-23 14:52 " +:+ plus_minus +:+ " 00:01"))
  = Ok (PStr "2024-Jan-23").
Proof. reflexivity. Qed.

Example test_clean_date_empty : clean_to_date_only (PStr "") = Ok (PStr " ").
Proof. reflexivity. Qed.

Example test_parse_valid_date :
  parse_date (PStr "2024-Jan-23") = Ok (mkdate 2024 1 23).
Proof. reflexivity. Qed.

Example test_parse_date_with_extra_whitespace :
  parse_date (PStr " 2024-Jan-23 ") = Ok (mkdate 2024 1 23).
Proof. reflexivity. Qed.

Example test_parse_invalid_date : parse_date (PStr "01/23/2024") = Raise ValueError.
Proof. reflexivity. Qed.

(** The run of the sample: seven writes, the status "complete" is the
    sixth and the result the seventh. *)
Example sample_run :
  map (fun w => (job_status w "job-1", rdb w !! result_key "job-1")) sample_trace =
  [(None, None);
   (Some (PStr "submitted"), None);
   (Some (PStr "submitted"), None);
   (Some (PStr "submitted"), None);
   (Some (PStr "in progress"), None);
   (Some (PStr "in progress"), None);
   (Some (PStr "complete"), None);
   (Some (PStr "complete"), Some (Raw [Byte.x89; Byte.x50; Byte.x4e; Byte.x47]))].
Proof. reflexivity. Qed.

(** ** C1 *)



(** ** C5 *)


(** ** C7 *)

Lemma get_after_submit_sample :
  exists job,
    outcome (create_job (job_request "2025-Jan-01" "2025-Jan-31" "1") "job-1"
               sample_world) = Ok (Jsonify job) /\
    outcome (get_job_by_id "job-1"
               (final (create_job (job_request "2025-Jan-01" "2025-Jan-31" "1") "job-1"
                         sample_world))) = Ok job /\
    py_get job "id" PNone = Ok (PStr "job-1") /\
    py_get job "status" PNone = Ok (PStr "submitted") /\
    py_get job "start" PNone = Ok (PStr "2025-Jan-01") /\
    py_get job "end" PNone = Ok (PStr "2025-Jan-31") /\
    py_get job "kind" PNone = Ok (PStr "1").
Proof.
  apply (get_after_submit sample_world
           (job_request "2025-Jan-01" "2025-Jan-31" "1") "job-1");
    reflexivity.
Defined.

(** ** C8 *)

(** The result of test/test_jobs.py: [{"output": "success", "data": [1, 2, 3]}]. *)
Definition sample_result : pyval :=
  PDict [(PStr "output", PStr "success");
         (PStr "data", PList [PInt 1; PInt 2; PInt 3])].



(** ** C9 *)


(** ** C10 *)

Lemma update_job_status_unknown_id_sample :
  update_job_status "no-such-job" "complete" sample_world =
  mkrun (Raise Exception) sample_world [].
Proof.
  apply (update_job_status_unknown_id sample_world "no-such-job" "complete").
  reflexivity.
Defined.

(** ** What the code does where the claims C2, C3, C4 and C6 ask for
    something else *)

(** C2: "2025-Feb-30" passes the pattern of [create_job] and is no date.
    The worker marks the job as started, [parse_date] raises, and the
    ValueError leaves [do_work]: the status stays "in progress". *)
Example unparsable_date_stays_in_progress :
  let w := submitted_world (job_request "2025-Feb-01" "2025-Feb-30" "1") "job-2" in
  job_status w "job-2" = Some (PStr "submitted") /\
  outcome (work_once w) = Raise ValueError /\
  job_status (final (work_once w)) "job-2" = Some (PStr "in progress").
Proof. cbv zeta. repeat split; reflexivity. Qed.

(** C3: no record falls in March 2025. The worker raises ValueError, the
    status stays "in progress" (not "failed"), and no result is stored. *)
Example no_data_stays_in_progress :
  let w := submitted_world (job_request "2025-Mar-01" "2025-Mar-31" "1") "job-3" in
  outcome (work_once w) = Raise ValueError /\
  job_status (final (work_once w)) "job-3" = Some (PStr "in progress") /\
  rdb (final (work_once w)) = ∅.
Proof. cbv zeta. repeat split; reflexivity. Qed.

(** C4: only the days of the month are compared. A range that starts on
    1 February and ends on 31 January is accepted and queued; one from
    31 January to 1 February is refused. *)
Example start_after_end_accepted :
  let r := create_job (job_request "2025-Feb-01" "2025-Jan-31" "1") "job-4" sample_world in
  parse_date (PStr "2025-Feb-01") = Ok (mkdate 2025 2 1) /\
  parse_date (PStr "2025-Jan-31") = Ok (mkdate 2025 1 31) /\
  date_le (mkdate 2025 2 1) (mkdate 2025 1 31) = false /\
  outcome r = Ok (Jsonify (_instantiate_job "job-4" submitted
                             (PStr "2025-Feb-01") (PStr "2025-Jan-31") (PStr "1"))) /\
  q (final r) = ["job-4"] /\
  is_Some (jdb (final r) !! "job-4") /\
  date_le (mkdate 2025 1 31) (mkdate 2025 2 1) = true /\
  create_job (job_request "2025-Jan-31" "2025-Feb-01" "1") "job-5" sample_world =
    mkrun (Ok (Text ("Start date must be before end date" +:+ nl))) sample_world [].
Proof. cbv zeta. repeat split; try reflexivity. eexists. reflexivity. Qed.

(** C6: the job of test/test_jobs.py, [add_job(start, end, 1)], has the
    int 1 as its kind, which is neither '1' nor '2'. The worker draws
    nothing, writes "complete", and fails on the plot file that was never
    written: the job is complete and has no result. *)
Example unknown_kind_is_completed :
  let w := final (add_job (PStr "2025-Jan-01") (PStr "2025-Jan-31") (PInt 1)
                    submitted "job-6" sample_world) in
  outcome (work_once w) = Raise UnboundLocalError /\
  job_status (final (work_once w)) "job-6" = Some (PStr "complete") /\
  rdb (final (work_once w)) !! result_key "job-6" = None.
Proof. cbv zeta. repeat split; reflexivity. Qed.

(** ** The general statements on the sample data *)

Lemma no_data_raises_sample :
  do_work "job-3"
    (submitted_world (job_request "2025-Mar-01" "2025-Mar-31" "1") "job-3") =
  mkrun (Raise ValueError)
    (with_job "job-3"
       (Doc (job_doc "job-3" "in progress" "2025-Mar-01" "2025-Mar-31" "1"))
       (submitted_world (job_request "2025-Mar-01" "2025-Mar-31" "1") "job-3"))
    [with_job "job-3"
       (Doc (job_doc "job-3" "in progress" "2025-Mar-01" "2025-Mar-31" "1"))
       (submitted_world (job_request "2025-Mar-01" "2025-Mar-31" "1") "job-3")].
Proof.
  apply (no_data_raises _ "job-3" "2025-Mar-01" "2025-Mar-31" "1"
           (mkdate 2025 3 1) (mkdate 2025 3 31) empty_series);
    reflexivity.
Defined.

(** The sample world with a queued job whose kind is "3". *)
Definition unknown_kind_world : world :=
  final (add_job (PStr "2025-Jan-01") (PStr "2025-Jan-31") (PStr "3")
           submitted "job-7" sample_world).

Lemma unknown_kind_completes_sample :
  do_work "job-7" unknown_kind_world =
  mkrun (Raise UnboundLocalError)
    (with_job "job-7"
       (Doc (job_doc "job-7" "complete" "2025-Jan-01" "2025-Jan-31" "3"))
       unknown_kind_world)
    [with_job "job-7"
       (Doc (job_doc "job-7" "in progress" "2025-Jan-01" "2025-Jan-31" "3"))
       unknown_kind_world;
     with_job "job-7"
       (Doc (job_doc "job-7" "complete" "2025-Jan-01" "2025-Jan-31" "3"))
       (with_job "job-7"
          (Doc (job_doc "job-7" "in progress" "2025-Jan-01" "2025-Jan-31" "3"))
          unknown_kind_world)] /\
  rdb (final (do_work "job-7" unknown_kind_world)) = rdb unknown_kind_world.
Proof.
  apply (unknown_kind_completes _ "job-7" "2025-Jan-01" "2025-Jan-31" "3"
           (mkdate 2025 1 1) (mkdate 2025 1 31)
           (@mkseries test_runtime [7] [3] [20] [1] [12]));
    first [reflexivity | discriminate].
Defined.


(** ** One run of the worker, on the sample data *)

(** The sample world with the job over January 2025 queued. *)
Definition january_job : world :=
  submitted_world (job_request "2025-Jan-01" "2025-Jan-31" "1") "job-1".

(** What [test_runtime] draws. *)
Definition sample_png : list Byte.byte := [Byte.x89; Byte.x50; Byte.x4e; Byte.x47].

Lemma do_work_succeeds_sample :
  let w1 := with_job "job-1"
              (Doc (job_doc "job-1" "in progress" "2025-Jan-01" "2025-Jan-31" "1"))
              january_job in
  let w2 := with_file (plot_path "job-1") (Raw sample_png) w1 in
  let w3 := with_job "job-1"
              (Doc (job_doc "job-1" "complete" "2025-Jan-01" "2025-Jan-31" "1")) w2 in
  let w4 := with_result (result_key "job-1") (Raw sample_png) w3 in
  do_work "job-1" january_job = mkrun (Ok tt) w4 [w1; w2; w3; w4] /\
  job_status w4 "job-1" = Some (PStr "complete") /\
  outcome (get_results "job-1" w4) = Ok (SendFile (Raw sample_png)).
Proof.
  apply (do_work_succeeds january_job "job-1" "2025-Jan-01" "2025-Jan-31" "1"
           (mkdate 2025 1 1) (mkdate 2025 1 31)
           (@mkseries test_runtime [7] [3] [20] [1] [12]) sample_png);
    first [reflexivity | discriminate | (left; split; reflexivity)].
Defined.

Lemma scan_lists_same_length_sample :
  balanced (@mkseries test_runtime [7] [3] [20] [1] [12]).
Proof.
  apply (scan_lists_same_length (rd sample_world) (mkdate 2025 1 1) (mkdate 2025 1 31)).
  reflexivity.
Defined.

Lemma scan_days_in_range_sample :
  Forall (fun x => day (mkdate 2025 1 1) <= x <= day (mkdate 2025 1 31))
         (days (@mkseries test_runtime [7] [3] [20] [1] [12])).
Proof.
  apply (scan_days_in_range (rd sample_world) (mkdate 2025 1 1) (mkdate 2025 1 31));
    reflexivity.
Defined.

(** ** Submission, results and the queue, on the sample data *)

Lemma add_job_unserialisable_sample :
  add_job (PBytes [Byte.x32; Byte.x30]) (PStr "2025-Jan-31") (PStr "1") submitted
    "job-8" sample_world =
  mkrun (Raise TypeError) sample_world [].
Proof.
  apply (add_job_unserialisable sample_world (PBytes [Byte.x32; Byte.x30])).
  reflexivity.
Defined.


Lemma store_job_result_other_id_sample :
  get_job_result "job123" (final (store_job_result "job456" sample_result sample_world)) =
  mkrun (outcome (get_job_result "job123" sample_world))
        (final (store_job_result "job456" sample_result sample_world)) [].
Proof.
  apply (store_job_result_other_id sample_world "job456" "job123" sample_result).
  discriminate.
Defined.

Lemma get_results_in_any_state_sample :
  Forall (fun w => forall jid,
            outcome (get_results jid w) = Ok (Text ("Job ID not found" +:+ nl)) \/
            exists b, rdb w !! result_key jid = Some b /\
                      outcome (get_results jid w) = Ok (SendFile b))
         sample_trace.
Proof.
  apply (get_results_in_any_state sample_ops sample_world); repeat split.
Defined.

Lemma queue_has_no_duplicates_sample :
  Forall (fun w => NoDup (q w) /\
            forall jid, jid ∈ q w ->
              job_status w jid = Some (PStr "submitted") /\
              rdb w !! result_key jid = None)
         sample_trace.
Proof.
  apply (queue_has_no_duplicates sample_ops sample_world); repeat split.
Defined.

(** ** Dates and the checks of a submission, on the sample data *)

Lemma parse_date_valid_sample :
  1 <= year (mkdate 2024 2 29) <= 9999 /\ 1 <= month (mkdate 2024 2 29) <= 12 /\
  1 <= day (mkdate 2024 2 29)
    <= days_in_month (year (mkdate 2024 2 29)) (month (mkdate 2024 2 29)).
Proof.
  apply (parse_date_valid (PStr "2024-Feb-29")). reflexivity.
Defined.

Lemma accepted_parameters_sample :
  exists s e k d1 d2,
    PStr "2025-Jan-01" = PStr s /\ PStr "2025-Jan-31" = PStr e /\ PStr "2" = PStr k /\
    re_date_match s = true /\ re_date_match e = true /\ (k = "1" \/ k = "2") /\
    day_field (PStr "2025-Jan-01") = Ok d1 /\ day_field (PStr "2025-Jan-31") = Ok d2 /\
    d1 <= d2 /\
    (k = "2" ->
     dash_part (PStr "2025-Jan-01") 0 = dash_part (PStr "2025-Jan-31") 0 /\
     dash_part (PStr "2025-Jan-01") 1 = dash_part (PStr "2025-Jan-31") 1).
Proof.
  apply (accepted_parameters (PStr "2025-Jan-01") (PStr "2025-Jan-31") (PStr "2")).
  reflexivity.
Defined.

(** ** Statuses and records, on the sample data *)





(** ** The checks and the scan, on the sample data *)

Lemma create_job_answers_strs_sample :
  exists r,
    outcome (create_job (job_request "2025-Jan-31" "2025-Feb-01" "2") "job-9"
               sample_world) = Ok r.
Proof.
  apply (create_job_answers_strs sample_world
           (job_request "2025-Jan-31" "2025-Feb-01" "2") "job-9"
           (PStr "2025-Jan-31") (PStr "2025-Feb-01") (PStr "2"));
    reflexivity.
Defined.

(** A start that is the int 1 and no str: [re.match] raises TypeError. *)
Example create_job_int_start_raises :
  create_job (PDict [(PStr "start_date", PInt 1);
                     (PStr "end_date", PStr "2025-Jan-31");
                     (PStr "kind", PStr "1")]) "job-9" sample_world =
  mkrun (Raise TypeError) sample_world [].
Proof. reflexivity. Qed.

Lemma scan_tolerates_bad_fields_sample :
  (exists ser, scan_result (rd sample_world) (mkdate 2025 1 1) (mkdate 2025 1 31) = Ok ser) \/
  scan_result (rd sample_world) (mkdate 2025 1 1) (mkdate 2025 1 31) = Raise OverflowError.
Proof.
  apply (scan_tolerates_bad_fields (rd sample_world)).
  intros key b H. cbn [rd sample_world] in H.
  apply lookup_insert_Some in H as [[_ <-]|[_ H]]; [reflexivity|].
  rewrite lookup_empty in H. discriminate H.
Defined.

(** The sample data with one value that is no JSON. *)
Definition corrupt_data : gmap string blob :=
  <["2025-Jan-13 08:00" := Raw [Byte.x7b]]> (rd sample_world).

Lemma scan_fails_on_corrupt_record_sample :
  exists e, scan_result corrupt_data (mkdate 2025 1 1) (mkdate 2025 1 31) = Raise e.
Proof.
  apply (scan_fails_on_corrupt_record corrupt_data (mkdate 2025 1 1) (mkdate 2025 1 31)
           "2025-Jan-13 08:00" [Byte.x7b]).
  - reflexivity.
  - discriminate.
Defined.

End Samples.
